(** * EchoSense: the rule-based sentiment scorer

    A shallow embedding of [echosense-backend/services/sentimentAnalysis.js]
    (class [SentimentAnalysisService]) and the properties of its scoring
    pipeline.

    Modelling conventions.
    - A JavaScript string is a list of characters ([jsstring]); the model
      covers ASCII text, characters above 127 are carried along as
      caseless punctuation.
    - A JavaScript number is an exact rational ([Q]); [NaN] is [None]
      where it can arise.  Every comparison of the source is made on the
      exact value.  The source computes on IEEE doubles, whose sums and
      quotients are rounded: the base score of one positive, one negative
      and one neutral word is 1/2 here and 0.5000000000000001 there, and
      a text that lands on a threshold in one can miss it in the other.
      The properties below are therefore kept to what does not turn on
      such a difference: which steps are taken, the clamp, the thresholds
      and the rounding to three decimals whatever the score they are
      applied to, and texts whose score stays away from the thresholds in
      both computations.
    - A call that can raise returns a [completion]; the result of an
      [async] method is the completion its promise settles with.
    - A plain object used as a map is the list of its own properties in
      creation order, read through the prototype chain. *)

From Stdlib Require Import List String Ascii ZArith NArith QArith Qround.
From Stdlib Require Import Lia Lqa Bool Permutation Sorted.
Import ListNotations.
Open Scope string_scope.
Open Scope list_scope.

(** ** JavaScript values and completions *)

Definition jsstring := list ascii.

Definition lit (s : string) : jsstring := list_ascii_of_string s.

(** The empty string. *)
Definition emptyText : jsstring := [].

#[warnings="-register-all"]
Inductive value : Type :=
| VUndefined
| VNull
| VBool (b : bool)
| VNum (n : Z)
| VStr (s : jsstring)
| VArr (elems : list value).

Inductive error : Type :=
| TypeError.

Inductive completion (A : Type) : Type :=
| Normal (a : A)
| Throw (e : error).

Arguments Normal {A} a.
Arguments Throw {A} e.

Definition bind {A B : Type} (c : completion A) (k : A -> completion B)
  : completion B :=
  match c with
  | Normal a => k a
  | Throw e => Throw e
  end.

Notation "x <- c ;; k" := (bind c (fun x => k))
  (at level 61, c at next level, right associativity).

(** [try { body } catch (error) { handler }] *)
Definition try_catch {A : Type} (body : completion A) (handler : error -> completion A)
  : completion A :=
  match body with
  | Normal a => Normal a
  | Throw e => handler e
  end.

(** Runs the callbacks of a [forEach]/[map] in index order; the first
    exception ends the loop. *)
Fixpoint mapM {A B : Type} (f : A -> completion B) (l : list A)
  : completion (list B) :=
  match l with
  | [] => Normal []
  | a :: r => b <- f a ;; bs <- mapM f r ;; Normal (b :: bs)
  end.

(** ** Numbers *)

Module Num.

Open Scope Q_scope.

Definition leb (a b : Q) : bool := Qle_bool a b.
Definition ltb (a b : Q) : bool := negb (Qle_bool b a).
Definition eqb (a b : Q) : bool := Qeq_bool a b.

(** [Math.min(a, b)] and [Math.max(a, b)] on numbers that are not [NaN]. *)
Definition Math_min (a b : Q) : Q := if leb a b then a else b.
Definition Math_max (a b : Q) : Q := if leb a b then b else a.

Definition of_nat (n : nat) : Q := inject_Z (Z.of_nat n).

(** [parseFloat(x.toFixed(3))]: [toFixed] picks the integer [n] with
    [n / 1000] nearest to [x], the larger one on a tie (on the magnitude
    for a negative [x]); the decimal string is read back exactly. *)
Definition round3 (x : Q) : Q := Qred (Qfloor (x * 1000 + (1 # 2)) # 1000).

Definition parseFloat_toFixed3 (x : Q) : Q :=
  if leb 0 x then round3 x else Qred (- round3 (- x)).

End Num.

(** ** Strings *)

Module Str.

Definition code (c : ascii) : N := N_of_ascii c.

Definition isUpper (c : ascii) : bool := ((65 <=? code c) && (code c <=? 90))%N.
Definition isLower (c : ascii) : bool := ((97 <=? code c) && (code c <=? 122))%N.
Definition isDigit (c : ascii) : bool := ((48 <=? code c) && (code c <=? 57))%N.

(** The class [\w]: letters, digits and the underscore. *)
Definition isWordChar (c : ascii) : bool :=
  isUpper c || isLower c || isDigit c || (code c =? 95)%N.

(** The class [\s] on ASCII: tab, line feed, vertical tab, form feed,
    carriage return and space. *)
Definition isSpaceChar (c : ascii) : bool :=
  ((9 <=? code c) && (code c <=? 13))%N || (code c =? 32)%N.

Definition space : ascii := " "%char.

Definition toLowerChar (c : ascii) : ascii :=
  if isUpper c then ascii_of_N (code c + 32) else c.

(** [s.toLowerCase()] *)
Definition toLowerCase (s : jsstring) : jsstring := map toLowerChar s.

(** [s.replace(/[^\w\s]/g, ' ')] *)
Definition replacePunctuation (s : jsstring) : jsstring :=
  map (fun c => if isWordChar c || isSpaceChar c then c else space) s.

(** [s.replace(/\s+/g, ' ')]: every maximal run of white space becomes one
    space.  [inRun] tells that the previous character was white space. *)
Fixpoint collapseFrom (inRun : bool) (s : jsstring) : jsstring :=
  match s with
  | [] => []
  | c :: r =>
      if isSpaceChar c
      then (if inRun then collapseFrom true r else space :: collapseFrom true r)
      else c :: collapseFrom false r
  end.

Definition normalizeWhitespace (s : jsstring) : jsstring := collapseFrom false s.

Fixpoint trimStart (s : jsstring) : jsstring :=
  match s with
  | [] => []
  | c :: r => if isSpaceChar c then trimStart r else s
  end.

Fixpoint trimEnd (s : jsstring) : jsstring :=
  match s with
  | [] => []
  | c :: r =>
      match trimEnd r with
      | [] => if isSpaceChar c then [] else [c]
      | r' => c :: r'
      end
  end.

(** [s.trim()] *)
Definition trim (s : jsstring) : jsstring := trimEnd (trimStart s).

(** [a === b] on strings *)
Fixpoint eqb (a b : jsstring) : bool :=
  match a, b with
  | [], [] => true
  | x :: a', y :: b' => Ascii.eqb x y && eqb a' b'
  | _, _ => false
  end.

(** [s.split(' ')]: the pieces between single spaces, empty pieces kept;
    the empty string gives one empty piece. *)
Fixpoint split_space (s : jsstring) : list jsstring :=
  match s with
  | [] => [[]]
  | c :: r =>
      if Ascii.eqb c space then [] :: split_space r
      else match split_space r with
           | w :: ws => (c :: w) :: ws
           | [] => [[c]]
           end
  end.

Fixpoint startsWith (s sub : jsstring) : bool :=
  match sub, s with
  | [], _ => true
  | _ :: _, [] => false
  | a :: sub', c :: s' => Ascii.eqb a c && startsWith s' sub'
  end.

(** [s.includes(sub)]: [sub] occurs in [s] as a substring. *)
Fixpoint includes (s sub : jsstring) : bool :=
  startsWith s sub ||
  match s with
  | [] => false
  | _ :: r => includes r sub
  end.

(** [(s.match(/!/g) || []).length] for a one-character pattern. *)
Definition countChar (c : ascii) (s : jsstring) : nat :=
  List.length (filter (Ascii.eqb c) s).

(** [s + 1]: the number is appended in decimal. *)
Definition appendOne (s : jsstring) : jsstring := s ++ lit "1".

End Str.

(** ** Arrays *)

Module Arr.

(** [array.includes(word)] on an array of strings *)
Definition includes (l : list jsstring) (word : jsstring) : bool :=
  existsb (Str.eqb word) l.

(** [array.slice(start, end)]: a negative bound counts from the end, both
    are clamped to the array. *)
Definition slice {A : Type} (l : list A) (start stop : Z) : list A :=
  let len := Z.of_nat (List.length l) in
  let k := if (start <? 0)%Z then Z.max (len + start) 0 else Z.min start len in
  let final := if (stop <? 0)%Z then Z.max (len + stop) 0 else Z.min stop len in
  firstn (Z.to_nat (final - k)) (skipn (Z.to_nat k) l).

(** [array.sort(comparefn)].  The sort is stable; a comparator result of
    [NaN] ([None]) counts as [0].  For a consistent comparator every stable
    sort gives this result: each element, taken from the right, moves
    behind the sorted elements it compares greater than.  A comparator
    that answers [NaN] for some pairs only is not consistent, and the order
    is then the engine's own: on two elements it is this one, on three or
    more it need not be, and nothing below rests on it there. *)
Fixpoint insert {A : Type} (cmp : A -> A -> option Z) (x : A) (l : list A) : list A :=
  match l with
  | [] => [x]
  | y :: r =>
      match cmp x y with
      | Some v => if (0 <? v)%Z then y :: insert cmp x r else x :: l
      | None => x :: l
      end
  end.

Definition sort {A : Type} (cmp : A -> A -> option Z) (l : list A) : list A :=
  fold_right (insert cmp) [] l.

End Arr.

(** ** Plain objects used as maps *)

Module Obj.

(** The values the scorer stores in an object: a number, or the string
    that [+ 1] makes of something that is not a number. *)
Inductive propval : Type :=
| PNum (n : Z)
| PStr (s : jsstring).

(** Own properties, in creation order. *)
Definition object := list (jsstring * propval).

Definition empty : object := [].

Fixpoint own (o : object) (key : jsstring) : option propval :=
  match o with
  | [] => None
  | (k, v) :: r => if Str.eqb k key then Some v else own r key
  end.

(** The properties an object made by [{}] inherits from
    [Object.prototype], each with the string its value converts to. *)
Definition prototypeFunctions : list jsstring :=
  map lit ["constructor"; "hasOwnProperty"; "isPrototypeOf";
           "propertyIsEnumerable"; "toLocaleString"; "toString"; "valueOf";
           "__defineGetter__"; "__defineSetter__"; "__lookupGetter__";
           "__lookupSetter__"].

Definition protoKey : jsstring := lit "__proto__".

Definition inherited (key : jsstring) : option jsstring :=
  if Str.eqb key protoKey then Some (lit "[object Object]")
  else if Str.eqb key (lit "constructor")
       then Some (lit "function Object() { [native code] }")
  else if Arr.includes prototypeFunctions key
       then Some (lit "function " ++ key ++ lit "() { [native code] }")
  else None.

(** What reading [o[key]] gives. *)
Inductive lookup : Type :=
| Own (v : propval)
| Inherited (printed : jsstring)
| Undefined.

Definition get (o : object) (key : jsstring) : lookup :=
  match own o key with
  | Some v => Own v
  | None =>
      match inherited key with
      | Some printed => Inherited printed
      | None => Undefined
      end
  end.

Fixpoint update (o : object) (key : jsstring) (v : propval) : object :=
  match o with
  | [] => [(key, v)]
  | (k, w) :: r => if Str.eqb k key then (k, v) :: r else (k, w) :: update r key v
  end.

(** [o[key] = v] for a primitive [v]: the [__proto__] setter ignores a
    primitive, every other key becomes or stays an own property. *)
Definition set (o : object) (key : jsstring) (v : propval) : object :=
  if Str.eqb key protoKey then o else update o key v.

(** [(x || 0) + 1] on what [o[key]] gave: a number is incremented,
    [undefined] counts as [0], anything else is truthy and [+] appends
    ["1"] to its string conversion. *)
Definition orZeroPlusOne (x : lookup) : propval :=
  match x with
  | Own (PNum n) => PNum (n + 1)
  | Own (PStr []) => PNum 1
  | Own (PStr s) => PStr (Str.appendOne s)
  | Inherited printed => PStr (Str.appendOne printed)
  | Undefined => PNum 1
  end.

Fixpoint parseDigits (acc : N) (s : jsstring) : option N :=
  match s with
  | [] => Some acc
  | c :: r =>
      if Str.isDigit c then parseDigits (acc * 10 + (Str.code c - 48)) r else None
  end.

(** A key is an array index when it is the decimal form, without leading
    zeros, of an integer below [2^32 - 1]. *)
Definition arrayIndex (key : jsstring) : option N :=
  match key with
  | [] => None
  | c :: r =>
      if Ascii.eqb c "0"%char && negb (Nat.eqb (List.length r) 0) then None
      else match parseDigits 0 key with
           | Some n => if (n <? 4294967295)%N then Some n else None
           | None => None
           end
  end.

Definition isIndexKey (p : jsstring * propval) : bool :=
  match arrayIndex (fst p) with Some _ => true | None => false end.

Definition indexOrder (a b : jsstring * propval) : option Z :=
  match arrayIndex (fst a), arrayIndex (fst b) with
  | Some m, Some n => Some (Z.of_N m - Z.of_N n)%Z
  | _, _ => None
  end.

(** [Object.entries(o)]: array-index keys in ascending numeric order, then
    the other keys in creation order. *)
Definition entries (o : object) : list (jsstring * propval) :=
  Arr.sort indexOrder (filter isIndexKey o)
  ++ filter (fun p => negb (isIndexKey p)) o.

(** [ToNumber] of a stored value; the strings stored here start with
    ["function "] or ["[object"] and convert to [NaN]. *)
Definition toNumber (v : propval) : option Z :=
  match v with
  | PNum n => Some n
  | PStr _ => None
  end.

End Obj.

(** ** SentimentAnalysisService *)

Inductive sentimentLabel : Type :=
| POSITIVE
| NEGATIVE
| NEUTRAL.

(** What [calculateSentimentScore] returns. *)
Module ScoreResult.
Record t : Type := make
  { score : Q;
    label : sentimentLabel;
    confidence : Q;
    keywords : list jsstring }.
End ScoreResult.

(** What [analyzeSentiment] resolves with. *)
Module SentimentResult.
Record t : Type := make
  { sentiment_score : Q;
    sentiment_label : sentimentLabel;
    confidence : Q;
    keywords : list jsstring }.
End SentimentResult.

(** What [getEmotionAnalysis] returns. *)
Module EmotionResult.
Record t : Type := make
  { dominant_emotion : jsstring;
    emotion_scores : Obj.object }.
End EmotionResult.

Module Service.

Import Num.
Open Scope Q_scope.

(** The fields of the instance that the methods read. *)
Record service : Type :=
  { isInitialized : bool;
    batchSize : Z }.

(** [new SentimentAnalysisService()]: [parsedBatchSize] is
    [parseInt(process.env.BATCH_SIZE)], [None] for [NaN];
    [initialize()] fills the lexicons and sets the flag. *)
Definition construct (parsedBatchSize : option Z) : service :=
  {| isInitialized := true;
     batchSize := match parsedBatchSize with
                  | Some n => if (n =? 0)%Z then 32%Z else n
                  | None => 32%Z
                  end |}.

Definition positiveKeywords : list jsstring :=
  map lit
    ["excellent"; "amazing"; "great"; "fantastic"; "wonderful"; "awesome"; "love"; "perfect";
     "outstanding"; "brilliant"; "superb"; "magnificent"; "incredible"; "remarkable";
     "innovation"; "revolutionary"; "breakthrough"; "cutting-edge"; "advanced"; "efficient";
     "sustainable"; "eco-friendly"; "green"; "clean"; "renewable"; "future"].

Definition negativeKeywords : list jsstring :=
  map lit
    ["terrible"; "awful"; "horrible"; "bad"; "worst"; "hate"; "disgusting"; "pathetic";
     "disappointing"; "frustrating"; "annoying"; "useless"; "broken"; "failed";
     "expensive"; "overpriced"; "costly"; "waste"; "scam"; "fraud"; "problem";
     "issue"; "bug"; "error"; "crash"; "slow"; "delayed"; "cancelled"].

Definition neutralKeywords : list jsstring :=
  map lit
    ["okay"; "fine"; "average"; "normal"; "standard"; "typical"; "regular";
     "moderate"; "acceptable"; "decent"; "fair"; "reasonable"].

Definition getDefaultSentiment : SentimentResult.t :=
  {| SentimentResult.sentiment_score := 1 # 2;
     SentimentResult.sentiment_label := NEUTRAL;
     SentimentResult.confidence := 3 # 10;
     SentimentResult.keywords := [] |}.

Definition preprocessString (text : jsstring) : jsstring :=
  Str.trim (Str.normalizeWhitespace (Str.replacePunctuation (Str.toLowerCase text))).

(** [!text || typeof text !== 'string'] holds for everything but a
    non-empty string. *)
Definition preprocessText (text : value) : jsstring :=
  match text with
  | VStr [] => []
  | VStr s => preprocessString s
  | _ => []
  end.

(** *** Context modifiers *)

Definition negationWords : list jsstring :=
  map lit ["not"; "no"; "never"; "none"; "nothing"; "nowhere"; "neither"; "nobody"].

Definition intensifiers : list jsstring :=
  map lit ["very"; "extremely"; "incredibly"; "absolutely"; "completely"; "totally"].

(** [list.some(word => text.includes(word))] *)
Definition someIncluded (text : jsstring) (list : list jsstring) : bool :=
  existsb (fun word => Str.includes text word) list.

Definition hasNegation (text : jsstring) : bool := someIncluded text negationWords.

Definition hasIntensifier (text : jsstring) : bool := someIncluded text intensifiers.

Definition negationModifier (text : jsstring) (modifiedScore : Q) : Q :=
  if hasNegation text then 1 - modifiedScore else modifiedScore.

Definition intensifierModifier (text : jsstring) (modifiedScore : Q) : Q :=
  if hasIntensifier text then
    if ltb 0.5 modifiedScore
    then Math_min 1 (modifiedScore * 1.2)
    else Math_max 0 (modifiedScore * 0.8)
  else modifiedScore.

Definition questionModifier (text : jsstring) (modifiedScore : Q) : Q :=
  if Str.includes text (lit "?") then (modifiedScore + 0.5) / 2 else modifiedScore.

Definition exclamationModifier (text : jsstring) (modifiedScore : Q) : Q :=
  let exclamationCount := Str.countChar "!"%char text in
  if (0 <? exclamationCount)%nat then
    let intensity := Math_min 0.2 (of_nat exclamationCount * 0.1) in
    if ltb 0.5 modifiedScore
    then Math_min 1 (modifiedScore + intensity)
    else Math_max 0 (modifiedScore - intensity)
  else modifiedScore.

(** The four steps of [applyContextModifiers], each on the running
    [modifiedScore], in the order of the source. *)
Definition applyContextModifiers (text : jsstring) (baseScore : Q) : Q :=
  let modifiedScore := baseScore in
  let modifiedScore := negationModifier text modifiedScore in
  let modifiedScore := intensifierModifier text modifiedScore in
  let modifiedScore := questionModifier text modifiedScore in
  let modifiedScore := exclamationModifier text modifiedScore in
  modifiedScore.

(** *** Lexical scoring *)

Inductive keywordType : Type :=
| positive
| negative
| neutral.

Record tally : Type :=
  { positiveScore : Q;
    negativeScore : Q;
    neutralScore : Q;
    foundKeywords : list (jsstring * keywordType) }.

Definition emptyTally : tally :=
  {| positiveScore := 0; negativeScore := 0; neutralScore := 0; foundKeywords := [] |}.

(** The body of [words.forEach(word => ...)]. *)
Definition countWord (t : tally) (word : jsstring) : tally :=
  if Arr.includes positiveKeywords word then
    {| positiveScore := positiveScore t + 1;
       negativeScore := negativeScore t;
       neutralScore := neutralScore t;
       foundKeywords := foundKeywords t ++ [(word, positive)] |}
  else if Arr.includes negativeKeywords word then
    {| positiveScore := positiveScore t;
       negativeScore := negativeScore t + 1;
       neutralScore := neutralScore t;
       foundKeywords := foundKeywords t ++ [(word, negative)] |}
  else if Arr.includes neutralKeywords word then
    {| positiveScore := positiveScore t;
       negativeScore := negativeScore t;
       neutralScore := neutralScore t + 0.5;
       foundKeywords := foundKeywords t ++ [(word, neutral)] |}
  else t.

(** [text.split(' ').filter(word => word.length > 2)] *)
Definition wordsOf (text : jsstring) : list jsstring :=
  filter (fun word => (2 <? List.length word)%nat) (Str.split_space text).

Definition tallyOf (text : jsstring) : tally :=
  fold_left countWord (wordsOf text) emptyTally.

Definition totalScore (t : tally) : Q :=
  positiveScore t + negativeScore t + neutralScore t.

(** [sentimentScore] and [confidence] as the [if (totalScore === 0)]
    statement leaves them. *)
Definition baseScore (text : jsstring) : Q * Q :=
  let words := wordsOf text in
  let t := tallyOf text in
  if eqb (totalScore t) 0 then (0.5, 0.3)
  else
    let positiveWeight := positiveScore t / totalScore t in
    let negativeWeight := negativeScore t / totalScore t in
    ((positiveWeight * 0.8) + (negativeWeight * 0.2) + 0.1,
     Math_min 0.95 (Math_max 0.4 (totalScore t / of_nat (List.length words) * 2))).

(** [sentimentScore] after the modifiers and the clamp to [0, 1]: the
    value the label is chosen from. *)
Definition clampedScore (text : jsstring) : Q :=
  let sentimentScore := fst (baseScore text) in
  let sentimentScore := applyContextModifiers text sentimentScore in
  Math_max 0 (Math_min 1 sentimentScore).

Definition labelOf (sentimentScore : Q) : sentimentLabel :=
  if leb 0.6 sentimentScore then POSITIVE
  else if leb sentimentScore 0.4 then NEGATIVE
  else NEUTRAL.

(** [calculateSentimentScore(text)] for a string [text]. *)
Definition calculateSentimentScore (text : jsstring) : ScoreResult.t :=
  let sentimentScore := clampedScore text in
  let confidence := snd (baseScore text) in
  {| ScoreResult.score := parseFloat_toFixed3 sentimentScore;
     ScoreResult.label := labelOf sentimentScore;
     ScoreResult.confidence := parseFloat_toFixed3 confidence;
     ScoreResult.keywords := map fst (foundKeywords (tallyOf text)) |}.

(** [calculateSentimentScore(text)] for any argument: the first thing done
    is [text.split(' ')], a [TypeError] unless [text] is a string. *)
Definition calculateSentimentScore_any (text : value) : completion ScoreResult.t :=
  match text with
  | VStr s => Normal (calculateSentimentScore s)
  | _ => Throw TypeError
  end.

(** [async analyzeSentiment(text)] *)
Definition analyzeSentiment (this : service) (text : value)
  : completion SentimentResult.t :=
  if negb (isInitialized this) then Normal getDefaultSentiment
  else
    try_catch
      (let cleanText := preprocessText text in
       sentiment <- calculateSentimentScore_any (VStr cleanText) ;;
       Normal {| SentimentResult.sentiment_score := ScoreResult.score sentiment;
                 SentimentResult.sentiment_label := ScoreResult.label sentiment;
                 SentimentResult.confidence := ScoreResult.confidence sentiment;
                 SentimentResult.keywords := ScoreResult.keywords sentiment |})
      (fun _ => Normal getDefaultSentiment).

(** The [for] loop of [analyzeBatch]; one unit of [fuel] per test of the
    loop condition, [None] when it runs out.  [Promise.all] over the
    mapped batch resolves with the results in the order of the batch. *)
Fixpoint analyzeBatch_loop (fuel : nat) (this : service) (texts : list value)
    (i : Z) (results : list SentimentResult.t)
  : option (completion (list SentimentResult.t)) :=
  match fuel with
  | O => None
  | S fuel' =>
      if (i <? Z.of_nat (List.length texts))%Z then
        let batch := Arr.slice texts i (i + batchSize this) in
        match mapM (analyzeSentiment this) batch with
        | Normal batchResults =>
            analyzeBatch_loop fuel' this texts (i + batchSize this)%Z
              (results ++ batchResults)
        | Throw e => Some (Throw e)
        end
      else Some (Normal results)
  end.

(** [async analyzeBatch(texts)] *)
Definition analyzeBatch (fuel : nat) (this : service) (texts : value)
  : option (completion (list SentimentResult.t)) :=
  match texts with
  | VArr elems => analyzeBatch_loop fuel this elems 0 []
  | _ => Some (Normal [])
  end.

(** [text.toLowerCase()] as a method call on any value. *)
Definition call_toLowerCase (text : value) : completion jsstring :=
  match text with
  | VStr s => Normal (Str.toLowerCase s)
  | _ => Throw TypeError
  end.

(** [extractBrandMentions(text, brands)]: [!brands || !Array.isArray(brands)]
    holds for everything but an array. *)
Definition extractBrandMentions (text brands : value) : completion (list value) :=
  match brands with
  | VArr elems =>
      cleanText <- call_toLowerCase text ;;
      found <- mapM (fun brand =>
                 brandLower <- call_toLowerCase brand ;;
                 Normal (if Str.includes cleanText brandLower then [brand] else []))
               elems ;;
      Normal (List.concat found)
  | _ => Normal []
  end.

(** The body of the [forEach] that counts word frequency. *)
Definition countFrequency (wordFreq : Obj.object) (word : jsstring) : Obj.object :=
  if (3 <? List.length word)%nat
  then Obj.set wordFreq word (Obj.orZeroPlusOne (Obj.get wordFreq word))
  else wordFreq.

Definition wordFrequencies (text : value) : Obj.object :=
  fold_left countFrequency (Str.split_space (preprocessText text)) Obj.empty.

(** The comparator [([,a], [,b]) => b - a]. *)
Definition byValueDescending (x y : jsstring * Obj.propval) : option Z :=
  match Obj.toNumber (snd y), Obj.toNumber (snd x) with
  | Some b, Some a => Some (b - a)%Z
  | _, _ => None
  end.

(** [extractKeywords(text, maxKeywords)] *)
Definition extractKeywords (text : value) (maxKeywords : Z) : list jsstring :=
  map fst
    (Arr.slice (Arr.sort byValueDescending (Obj.entries (wordFrequencies text)))
       0 maxKeywords).

(** [extractKeywords(text)]: [maxKeywords = 10] *)
Definition extractKeywords_default (text : value) : list jsstring :=
  extractKeywords text 10.

Definition emotions : list (jsstring * list jsstring) :=
  [ (lit "joy", map lit ["happy"; "excited"; "thrilled"; "delighted"; "pleased"; "satisfied"]);
    (lit "anger", map lit ["angry"; "furious"; "mad"; "irritated"; "annoyed"; "frustrated"]);
    (lit "fear", map lit ["scared"; "afraid"; "worried"; "anxious"; "concerned"; "nervous"]);
    (lit "sadness", map lit ["sad"; "disappointed"; "upset"; "depressed"; "unhappy"]);
    (lit "surprise", map lit ["surprised"; "shocked"; "amazed"; "astonished"; "stunned"]);
    (lit "trust", map lit ["trust"; "confident"; "reliable"; "dependable"; "secure"]) ].

(** [keywords.filter(keyword => cleanText.includes(keyword)).length] *)
Definition matchesOf (cleanText : jsstring) (keywords : list jsstring) : nat :=
  List.length (filter (fun keyword => Str.includes cleanText keyword) keywords).

Definition scoreEmotions (cleanText : jsstring) : Obj.object :=
  fold_left
    (fun emotionScores entry =>
       Obj.set emotionScores (fst entry)
         (Obj.PNum (Z.of_nat (matchesOf cleanText (snd entry)))))
    emotions Obj.empty.

(** [getEmotionAnalysis(text)]; reading [[0]] of an empty array gives
    [undefined], whose [[1]] is a [TypeError]. *)
Definition getEmotionAnalysis (text : value) : completion EmotionResult.t :=
  let cleanText := preprocessText text in
  let emotionScores := scoreEmotions cleanText in
  match Arr.sort byValueDescending (Obj.entries emotionScores) with
  | dominantEmotion :: _ =>
      Normal
        {| EmotionResult.dominant_emotion :=
             match snd dominantEmotion with
             | Obj.PNum n => if (0 <? n)%Z then fst dominantEmotion else lit "neutral"
             | Obj.PStr _ => lit "neutral"
             end;
           EmotionResult.emotion_scores := emotionScores |}
  | [] => Throw TypeError
  end.

End Service.

(** ** Vocabulary of the properties *)

Module Props.

Import Service.

Definition isString (v : value) : bool :=
  match v with VStr _ => true | _ => false end.

Definition isArray (v : value) : bool :=
  match v with VArr _ => true | _ => false end.

(** The weighted number of lexicon matches of a text is zero. *)
Definition noMatches (text : jsstring) : Prop :=
  (totalScore (tallyOf text) == 0)%Q.

(** [n] copies of [word], each followed by a space. *)
Fixpoint repeatWord (n : nat) (word : jsstring) : jsstring :=
  match n with
  | O => []
  | S n' => word ++ Str.space :: repeatWord n' word
  end.


(** Seventeen positive words, eighty-three negative words and one neutral
    word, no punctuation. *)
Definition longReview : jsstring :=
  repeatWord 17 (lit "great") ++ repeatWord 83 (lit "bad") ++ lit "okay".

(** The suffixes of a text, longest first. *)
Fixpoint suffixes (text : jsstring) : list jsstring :=
  match text with
  | [] => [[]]
  | _ :: r => text :: suffixes r
  end.

(** The number of places of the text at which a negation word starts. *)
Definition negationOccurrences (text : jsstring) : nat :=
  List.length
    (filter (fun suffix => existsb (Str.startsWith suffix) negationWords)
       (suffixes text)).

(** Every token of the text is a word of the negative lexicon. *)
Definition onlyNegativeWords (text : jsstring) : bool :=
  forallb (Arr.includes negativeKeywords) (Str.split_space text).

(** No token of the text is a negation word. *)
Definition noNegationWord (text : jsstring) : bool :=
  forallb (fun word => negb (Arr.includes negationWords word)) (Str.split_space text).

(** The characters a preprocessed text is made of: lower-case letters,
    digits, the underscore, and the space. *)
Definition cleanChar (c : ascii) : bool :=
  (Str.isWordChar c && negb (Str.isUpper c)) || Ascii.eqb c Str.space.

(** No white space follows white space; with [afterSpace] the text does
    not start with white space either. *)
Fixpoint singleSpaced (afterSpace : bool) (s : jsstring) : bool :=
  match s with
  | [] => true
  | c :: r =>
      if Str.isSpaceChar c then negb afterSpace && singleSpaced true r
      else singleSpaced false r
  end.

Definition startsClean (s : jsstring) : bool :=
  match s with
  | [] => true
  | c :: _ => negb (Str.isSpaceChar c)
  end.

Fixpoint endsClean (s : jsstring) : bool :=
  match s with
  | [] => true
  | c :: r =>
      match r with
      | [] => negb (Str.isSpaceChar c)
      | _ :: _ => endsClean r
      end
  end.

(** What [toLowerCase] and the punctuation replacement make of one
    character. *)
Definition normalChar (c : ascii) : ascii :=
  let d := Str.toLowerChar c in
  if Str.isWordChar d || Str.isSpaceChar d then d else Str.space.

(** A text as [preprocessText] leaves it. *)
Definition tidy (s : jsstring) : bool :=
  forallb cleanChar s && singleSpaced false s && startsClean s && endsClean s.

(** A question mark or an exclamation mark. *)
Definition isMark (c : ascii) : bool :=
  Ascii.eqb c "?"%char || Ascii.eqb c "!"%char.

(** The text is empty or starts with a character outside [\w]. *)
Definition startsAtBoundary (s : jsstring) : bool :=
  match s with
  | [] => true
  | c :: _ => negb (Str.isWordChar c)
  end.

(** The text is empty or ends with a character outside [\w]. *)
Definition endsAtBoundary (s : jsstring) : bool := startsAtBoundary (rev s).

(** Whether a scan that started [afterSpace] is after white space at the
    end of [s]. *)
Fixpoint endsAfterSpace (afterSpace : bool) (s : jsstring) : bool :=
  match s with
  | [] => afterSpace
  | c :: r => endsAfterSpace (Str.isSpaceChar c) r
  end.

(** How often [word] is a token of the preprocessed text. *)
Definition frequency (text : value) (word : jsstring) : nat :=
  List.length (filter (Str.eqb word) (Str.split_space (preprocessText text))).

(** The tokens of the preprocessed text that [extractKeywords] counts. *)
Definition longTokens (text : value) : list jsstring :=
  filter (fun word => (3 <? List.length word)%nat)
    (Str.split_space (preprocessText text)).

(** No counted token is the name of a property that a plain object
    inherits. *)
Definition ordinaryTokens (text : value) : bool :=
  forallb (fun word => match Obj.inherited word with
                       | Some _ => false
                       | None => true
                       end)
    (longTokens text).

(** The number stored under a key, [0] when there is none. *)
Definition storedCount (o : Obj.object) (key : jsstring) : Z :=
  match Obj.own o key with
  | Some (Obj.PNum n) => n
  | _ => 0%Z
  end.

(** How often [word] is among [words]. *)
Definition occurrences (word : jsstring) (words : list jsstring) : Z :=
  Z.of_nat (List.length (filter (Str.eqb word) words)).

Definition isCount (p : jsstring * Obj.propval) : bool :=
  match snd p with
  | Obj.PNum _ => true
  | Obj.PStr _ => false
  end.

Definition countOf (p : jsstring * Obj.propval) : Z :=
  match snd p with
  | Obj.PNum n => n
  | Obj.PStr _ => 0%Z
  end.

(** Descending by count. *)
Definition descending (a b : jsstring * Obj.propval) : Prop :=
  (countOf b <= countOf a)%Z.

(** The count [getEmotionAnalysis] stores for an entry of [emotions]. *)
Definition emotionCount (cleanText : jsstring) (entry : jsstring * list jsstring) : Z :=
  Z.of_nat (matchesOf cleanText (snd entry)).

End Props.

(** ** Further vocabulary *)

Module More.

Import Service Props.

(** The word is in one of the three lexicons. *)
Definition isLexiconWord (word : jsstring) : bool :=
  Arr.includes positiveKeywords word
  || Arr.includes negativeKeywords word
  || Arr.includes neutralKeywords word.

(** Every token of the text is a word of the positive lexicon. *)
Definition onlyPositiveWords (text : jsstring) : bool :=
  forallb (Arr.includes positiveKeywords) (Str.split_space text).

(** White space read as the space that [\s+] leaves of it. *)
Definition asSpace (c : ascii) : ascii :=
  if Str.isSpaceChar c then Str.space else c.

Definition hasHyphen (word : jsstring) : bool :=
  existsb (Ascii.eqb "-"%char) word.

Definition allStrings (l : list value) : bool := forallb isString l.

(** The strings of an array of strings. *)
Fixpoint stringsOf (l : list value) : list jsstring :=
  match l with
  | [] => []
  | VStr s :: r => s :: stringsOf r
  | _ :: r => stringsOf r
  end.

(** No counted token is "constructor" or "__proto__". *)
Definition plainTokens (text : value) : bool :=
  forallb (fun word => negb (Str.eqb word (lit "constructor"))
                       && negb (Str.eqb word Obj.protoKey))
    (longTokens text).

(** The counted words in the order [extractKeywords] cuts its result
    from. *)
Definition allKeywords (text : value) : list jsstring :=
  map fst (Arr.sort byValueDescending (Obj.entries (wordFrequencies text))).

(** The lower-cased brand occurs in the lower-cased text. *)
Definition mentioned (text brand : jsstring) : bool :=
  Str.includes (Str.toLowerCase text) (Str.toLowerCase brand).

End More.

(** ** DataCollectionService: configuration and brand matching *)

Module Collection.

(** [s.split(',')]: the pieces between commas, empty pieces kept. *)
Fixpoint split_comma (s : jsstring) : list jsstring :=
  match s with
  | [] => [[]]
  | c :: r =>
      if Ascii.eqb c ","%char then [] :: split_comma r
      else match split_comma r with
           | w :: ws => (c :: w) :: ws
           | [] => [[c]]
           end
  end.

(** [(process.env.NAME || fallback).split(',').map(x => x.trim())]: an
    unset or empty variable gives the fallback. *)
Definition listSetting (variable : option jsstring) (fallback : jsstring)
  : list jsstring :=
  let source := match variable with
                | Some [] => fallback
                | Some s => s
                | None => fallback
                end in
  map Str.trim (split_comma source).

(** The environment variables the constructor reads;
    [MAX_POSTS_PER_SOURCE] as [parseInt] gives it, [None] for [NaN]. *)
Record environment : Type :=
  { TARGET_BRAND : option jsstring;
    SUBREDDITS : option jsstring;
    NEWS_KEYWORDS : option jsstring;
    MAX_POSTS_PER_SOURCE : option Z;
    NEWS_API_KEY : option jsstring;
    YOUTUBE_API_KEY : option jsstring }.

(** The fields of the instance that the methods modelled here read. *)
Record collector : Type :=
  { isRunning : bool;
    newsApiKey : option jsstring;
    youtubeApiKey : option jsstring;
    targetBrands : list jsstring;
    subreddits : list jsstring;
    newsKeywords : list jsstring;
    maxPostsPerSource : Z }.

(** The configuration part of [new DataCollectionService(...)]. *)
Definition construct (env : environment) : collector :=
  {| isRunning := false;
     newsApiKey := NEWS_API_KEY env;
     youtubeApiKey := YOUTUBE_API_KEY env;
     targetBrands := listSetting (TARGET_BRAND env) (lit "Tesla,Zuntra");
     subreddits :=
       listSetting (SUBREDDITS env) (lit "technology,news,cars,electricvehicles");
     newsKeywords :=
       listSetting (NEWS_KEYWORDS env) (lit "Tesla,Elon Musk,electric vehicle");
     maxPostsPerSource := match MAX_POSTS_PER_SOURCE env with
                          | Some n => if (n =? 0)%Z then 50%Z else n
                          | None => 50%Z
                          end |}.

(** [extractBrandMentions(content)] of the collector, on a string. *)
Definition extractBrandMentions (this : collector) (content : jsstring)
  : list jsstring :=
  let lowerContent := Str.toLowerCase content in
  filter (fun brand => Str.includes lowerContent (Str.toLowerCase brand))
    (targetBrands this).

(** [!key]: the key is unset or empty. *)
Definition missing (key : option jsstring) : bool :=
  match key with
  | Some (_ :: _) => false
  | _ => true
  end.

(** The number of commas of a string. *)
Definition commas (s : jsstring) : nat := Str.countChar ","%char s.

(** [pieces.join(',')] *)
Fixpoint join_comma (pieces : list jsstring) : jsstring :=
  match pieces with
  | [] => []
  | [p] => p
  | p :: rest => p ++ ","%char :: join_comma rest
  end.

(** *** collectNewsData

    The collaborators are a script of what they answer: the rate limiter,
    the HTTP client and the database each by the number of the call,
    [Buffer]'s base64 encoding as a function.  Of the database
    ([DatabaseService]) the model keeps what the collector sees of
    [savePost] and [saveSentimentData]: the call resolves or it rejects;
    [posts] and [sentiments] are the arguments of the calls that resolved,
    in order, not the rows of the tables.  The logger's calls are recorded
    and return.  [this.sentiment] is the sentiment service. *)

(** An article of the response; [None] is a field that is [null] or
    absent. *)
Record article : Type :=
  { title : option jsstring;
    description : option jsstring;
    url : option jsstring;
    sourceName : option jsstring;
    publishedAt : option jsstring }.

Record script : Type :=
  { limiterAllows : nat -> bool;
    (** [Throw]: the request fails or has no [data]; [None]: [data.articles]
        is absent. *)
    responses : nat -> completion (option (list article));
    databaseAccepts : nat -> bool }.

(** The parameters of a request that depend on the run. *)
Record request : Type :=
  { q : jsstring;
    pageSize : Z }.

(** The argument of [database.savePost]. *)
Record post : Type :=
  { post_platform : jsstring;
    post_id : jsstring;
    post_title : jsstring;
    post_content : jsstring;
    post_author : jsstring;
    post_url : option jsstring;
    post_score : Z;
    comments_count : Z }.

(** The argument of [database.saveSentimentData]. *)
Record sentimentData : Type :=
  { source : jsstring;
    platform : jsstring;
    content : jsstring;
    sentiment_score : Q;
    sentiment_label : sentimentLabel;
    confidence : Q;
    brand : jsstring;
    keywords : list jsstring;
    meta_source_name : option jsstring;
    meta_published_at : option jsstring;
    meta_url : option jsstring;
    meta_keyword : jsstring }.

Inductive logEntry : Type :=
| WarnNoNewsKey
| InfoCollected (totalCollected : nat) (keyword : jsstring)
| ErrorKeyword (keyword : jsstring)
| ErrorCollection.

(** What a run has done so far. *)
Record state : Type :=
  { consumed : nat;
    requests : list request;
    databaseCalls : nat;
    posts : list post;
    sentiments : list sentimentData;
    logs : list logEntry }.

Definition initialState : state :=
  {| consumed := 0; requests := []; databaseCalls := 0;
     posts := []; sentiments := []; logs := [] |}.

(** How a block ends: normally, or with an exception on its way to the
    enclosing [catch]. *)
Inductive ending : Type :=
| Completed
| Raised.

(** [x || fallback] on a string field. *)
Definition orElse (x : option jsstring) (fallback : jsstring) : jsstring :=
  match x with
  | Some (c :: s) => c :: s
  | _ => fallback
  end.

(** [s.substring(0, n)] *)
Definition substring0 (n : nat) (s : jsstring) : jsstring := firstn n s.

Definition log (entry : logEntry) (st : state) : state :=
  {| consumed := consumed st; requests := requests st;
     databaseCalls := databaseCalls st; posts := posts st;
     sentiments := sentiments st; logs := logs st ++ [entry] |}.

Section CollectNews.

Variable this : collector.
Variable sentiment : Service.service.
Variable base64 : jsstring -> jsstring.
Variable world : script.

(** [await this.newsLimiter.consume('news')] *)
Definition consume (st : state) : ending * state :=
  (if limiterAllows world (consumed st) then Completed else Raised,
   {| consumed := S (consumed st); requests := requests st;
      databaseCalls := databaseCalls st; posts := posts st;
      sentiments := sentiments st; logs := logs st |}).

(** [await axios.get(...)] and the reading of [response.data.articles || []] *)
Definition getArticles (keyword : jsstring) (st : state)
  : completion (list article) * state :=
  (match responses world (List.length (requests st)) with
   | Normal (Some articles) => Normal articles
   | Normal None => Normal []
   | Throw e => Throw e
   end,
   {| consumed := consumed st;
      requests := requests st
                  ++ [{| q := keyword;
                         pageSize := Z.min (maxPostsPerSource this) 100 |}];
      databaseCalls := databaseCalls st; posts := posts st;
      sentiments := sentiments st; logs := logs st |}).

(** [await this.database.savePost(p)] *)
Definition savePost (p : post) (st : state) : ending * state :=
  if databaseAccepts world (databaseCalls st) then
    (Completed,
     {| consumed := consumed st; requests := requests st;
        databaseCalls := S (databaseCalls st); posts := posts st ++ [p];
        sentiments := sentiments st; logs := logs st |})
  else
    (Raised,
     {| consumed := consumed st; requests := requests st;
        databaseCalls := S (databaseCalls st); posts := posts st;
        sentiments := sentiments st; logs := logs st |}).

(** [await this.database.saveSentimentData(d)] *)
Definition saveSentimentData (d : sentimentData) (st : state) : ending * state :=
  if databaseAccepts world (databaseCalls st) then
    (Completed,
     {| consumed := consumed st; requests := requests st;
        databaseCalls := S (databaseCalls st); posts := posts st;
        sentiments := sentiments st ++ [d]; logs := logs st |})
  else
    (Raised,
     {| consumed := consumed st; requests := requests st;
        databaseCalls := S (databaseCalls st); posts := posts st;
        sentiments := sentiments st; logs := logs st |}).

Definition newsPost (a : article) (articleTitle : jsstring) : post :=
  {| post_platform := lit "news";
     post_id := lit "news_" ++ substring0 20 (base64 (orElse (url a) []));
     post_title := articleTitle;
     post_content := orElse (description a) [];
     post_author := orElse (sourceName a) (lit "Unknown");
     post_url := url a;
     post_score := 0;
     comments_count := 0 |}.

Definition newsSentiment (a : article) (keyword fullContent : jsstring)
    (sentimentResult : SentimentResult.t) (mentionedBrand : jsstring)
  : sentimentData :=
  {| source := keyword;
     platform := lit "news";
     content := substring0 1000 fullContent;
     sentiment_score := SentimentResult.sentiment_score sentimentResult;
     sentiment_label := SentimentResult.sentiment_label sentimentResult;
     confidence := SentimentResult.confidence sentimentResult;
     brand := mentionedBrand;
     keywords := SentimentResult.keywords sentimentResult;
     meta_source_name := sourceName a;
     meta_published_at := publishedAt a;
     meta_url := url a;
     meta_keyword := keyword |}.

(** The body of [for (const article of articles)], with [totalCollected]
    beside the state: an exception leaves the loop and keeps the count. *)
Fixpoint forArticles (keyword : jsstring) (articles : list article)
    (totalCollected : nat) (st : state) : ending * nat * state :=
  match articles with
  | [] => (Completed, totalCollected, st)
  | a :: rest =>
      match title a, description a with
      | Some (t0 :: t), Some (d0 :: d) =>
          let fullContent := (t0 :: t) ++ Str.space :: (d0 :: d) in
          match extractBrandMentions this fullContent with
          | [] => forArticles keyword rest totalCollected st
          | mentionedBrand :: _ =>
              match savePost (newsPost a (t0 :: t)) st with
              | (Raised, st1) => (Raised, totalCollected, st1)
              | (Completed, st1) =>
                  match Service.analyzeSentiment sentiment (VStr fullContent) with
                  | Throw _ => (Raised, totalCollected, st1)
                  | Normal sentimentResult =>
                      match saveSentimentData
                              (newsSentiment a keyword fullContent
                                 sentimentResult mentionedBrand) st1 with
                      | (Raised, st2) => (Raised, totalCollected, st2)
                      | (Completed, st2) =>
                          forArticles keyword rest (S totalCollected) st2
                      end
                  end
              end
          end
      | _, _ => forArticles keyword rest totalCollected st
      end
  end.

(** The inner [try] for one keyword and its [catch]. *)
Definition forKeyword (keyword : jsstring) (totalCollected : nat) (st : state)
  : nat * state :=
  match getArticles keyword st with
  | (Throw _, st1) => (totalCollected, log (ErrorKeyword keyword) st1)
  | (Normal articles, st1) =>
      match forArticles keyword articles totalCollected st1 with
      | (Completed, n, st2) => (n, log (InfoCollected n keyword) st2)
      | (Raised, n, st2) => (n, log (ErrorKeyword keyword) st2)
      end
  end.

(** [for (const keyword of this.newsKeywords)] inside the outer [try]:
    a refusal of the limiter leaves the loop. *)
Fixpoint forKeywords (keywords : list jsstring) (totalCollected : nat)
    (st : state) : ending * nat * state :=
  match keywords with
  | [] => (Completed, totalCollected, st)
  | keyword :: rest =>
      match consume st with
      | (Raised, st1) => (Raised, totalCollected, st1)
      | (Completed, st1) =>
          let '(n, st2) := forKeyword keyword totalCollected st1 in
          forKeywords rest n st2
      end
  end.

(** [async collectNewsData()]: what it resolves with, and the state it
    leaves. *)
Definition collectNewsData (st : state) : nat * state :=
  if missing (newsApiKey this) then (0%nat, log WarnNoNewsKey st)
  else
    match forKeywords (newsKeywords this) 0 st with
    | (Completed, n, st1) => (n, st1)
    | (Raised, n, st1) => (n, log ErrorCollection st1)
    end.

End CollectNews.

(** The request [collectNewsData] makes for a keyword. *)
Definition requestFor (this : collector) (keyword : jsstring) : request :=
  {| q := keyword; pageSize := Z.min (maxPostsPerSource this) 100 |}.

(** The content [collectNewsData] reads of an article:
    [`${article.title} ${article.description}`], for an article that has
    both. *)
Definition contentOf (a : article) : option jsstring :=
  match title a, description a with
  | Some (t0 :: t), Some (d0 :: d) => Some ((t0 :: t) ++ Str.space :: d0 :: d)
  | _, _ => None
  end.

(** The record of sentiment data that belongs to an article found under a
    keyword: none unless the article has a title and a description and
    they mention a target brand. *)
Definition recordOf (this : collector) (sentiment : Service.service)
    (keyword : jsstring) (a : article) : option sentimentData :=
  match contentOf a with
  | Some fullContent =>
      match extractBrandMentions this fullContent,
            Service.analyzeSentiment sentiment (VStr fullContent) with
      | mentionedBrand :: _, Normal sentimentResult =>
          Some (newsSentiment a keyword fullContent sentimentResult mentionedBrand)
      | _, _ => None
      end
  | None => None
  end.

(** The articles of the reply to the request with the given number, if
    the request succeeded. *)
Definition articlesOf (world : script) (number : nat) : list article :=
  match responses world number with
  | Normal (Some articles) => articles
  | _ => []
  end.

End Collection.


(** * Properties *)

Import Num Service Props.
Open Scope Q_scope.

(** ** Arithmetic of the scorer *)

Lemma leb_cases (a b : Q) :
  (leb a b = true /\ a <= b) \/ (leb a b = false /\ b < a).
Proof.
  unfold leb. destruct (Qle_bool a b) eqn:E.
  - left. split; [reflexivity | now apply Qle_bool_iff].
  - right. split; [reflexivity |].
    apply Qnot_le_lt. intro H. apply Qle_bool_iff in H. congruence.
Qed.

Lemma ltb_cases (a b : Q) :
  (ltb a b = true /\ a < b) \/ (ltb a b = false /\ b <= a).
Proof.
  unfold ltb. destruct (leb_cases b a) as [[E H] | [E H]];
    unfold leb in E; rewrite E; simpl; auto.
Qed.

Ltac no_test_inside t :=
  lazymatch t with
  | context [leb _ _] => fail
  | context [ltb _ _] => fail
  | _ => idtac
  end.

(** Decides the comparisons of the goal, innermost first. *)
Ltac split_leb :=
  repeat match goal with
    | |- context [leb ?a ?b] =>
        no_test_inside a; no_test_inside b;
        let E := fresh "E" in let H := fresh "H" in
        destruct (leb_cases a b) as [[E H] | [E H]]; rewrite E; cbv beta iota
    | |- context [ltb ?a ?b] =>
        no_test_inside a; no_test_inside b;
        let E := fresh "E" in let H := fresh "H" in
        destruct (ltb_cases a b) as [[E H] | [E H]]; rewrite E; cbv beta iota
    end.

Lemma Math_min_spec (a b : Q) :
  (a <= b /\ Math_min a b = a) \/ (b < a /\ Math_min a b = b).
Proof.
  unfold Math_min. destruct (leb_cases a b) as [[E H] | [E H]]; rewrite E; auto.
Qed.

Lemma Math_max_spec (a b : Q) :
  (a <= b /\ Math_max a b = b) \/ (b < a /\ Math_max a b = a).
Proof.
  unfold Math_max. destruct (leb_cases a b) as [[E H] | [E H]]; rewrite E; auto.
Qed.

Lemma clamp_bounds (lo hi x : Q) :
  lo <= hi -> lo <= Math_max lo (Math_min hi x) <= hi.
Proof.
  intros Hlh.
  destruct (Math_min_spec hi x) as [[H1 ->] | [H1 ->]];
    destruct (Math_max_spec lo hi) as [[H2 E2] | [H2 E2]];
    destruct (Math_max_spec lo x) as [[H3 E3] | [H3 E3]];
    rewrite ?E2, ?E3; split; lra.
Qed.

Lemma clamp_bounds' (lo hi x : Q) :
  lo <= hi -> lo <= Math_min hi (Math_max lo x) <= hi.
Proof.
  intros Hlh.
  destruct (Math_max_spec lo x) as [[H1 ->] | [H1 ->]];
    destruct (Math_min_spec hi x) as [[H2 E2] | [H2 E2]];
    destruct (Math_min_spec hi lo) as [[H3 E3] | [H3 E3]];
    rewrite ?E2, ?E3; split; lra.
Qed.

Lemma round3_eq (x : Q) : round3 x == Qfloor (x * 1000 + (1 # 2)) # 1000.
Proof. unfold round3. apply Qred_correct. Qed.

Lemma thousandths_le (m n : Z) : (m <= n)%Z -> m # 1000 <= n # 1000.
Proof. intros H. unfold Qle. simpl. lia. Qed.

(** Rounding to three decimals never crosses a multiple of [1/1000]. *)
Lemma round3_ge (k : Z) (x : Q) : k # 1000 <= x -> k # 1000 <= round3 x.
Proof.
  intros H. rewrite round3_eq. apply thousandths_le.
  rewrite <- (Qfloor_Z k). apply Qfloor_resp_le.
  assert (E : inject_Z k == (k # 1000) * 1000).
  { unfold Qeq, inject_Z, Qmult. simpl. lia. }
  rewrite E. lra.
Qed.

Lemma round3_le (k : Z) (x : Q) : x <= k # 1000 -> round3 x <= k # 1000.
Proof.
  intros H. rewrite round3_eq. apply thousandths_le.
  assert (E : inject_Z k == (k # 1000) * 1000).
  { unfold Qeq, inject_Z, Qmult. simpl. lia. }
  pose proof (Qfloor_le (x * 1000 + (1 # 2))) as F.
  assert (L : inject_Z (Qfloor (x * 1000 + (1 # 2))) < inject_Z (k + 1)).
  { rewrite inject_Z_plus, E. unfold inject_Z at 2. lra. }
  rewrite <- Zlt_Qlt in L. lia.
Qed.


Lemma parseFloat_toFixed3_nonneg (x : Q) :
  0 <= x -> parseFloat_toFixed3 x = round3 x.
Proof.
  intros H. unfold parseFloat_toFixed3.
  destruct (leb_cases 0 x) as [[E _] | [_ C]]; [now rewrite E | lra].
Qed.

(** ** What analyzeSentiment resolves with *)

(** What [analyzeSentiment] resolves with: the [catch] branch is never
    taken, because [calculateSentimentScore] is given a string. *)
Lemma analyzeSentiment_value (this : service) (text : value) :
  analyzeSentiment this text =
  Normal
    (if isInitialized this then
       let sentiment := calculateSentimentScore (preprocessText text) in
       {| SentimentResult.sentiment_score := ScoreResult.score sentiment;
          SentimentResult.sentiment_label := ScoreResult.label sentiment;
          SentimentResult.confidence := ScoreResult.confidence sentiment;
          SentimentResult.keywords := ScoreResult.keywords sentiment |}
     else getDefaultSentiment).
Proof.
  unfold analyzeSentiment. destruct (isInitialized this); reflexivity.
Qed.

Lemma analyzeSentiment_returns (this : service) (text : value) :
  exists r, analyzeSentiment this text = Normal r.
Proof. rewrite analyzeSentiment_value. eexists. reflexivity. Qed.

(** ** Score, confidence and label of a result *)

Lemma clampedScore_bounds (text : jsstring) : 0 <= clampedScore text <= 1.
Proof. unfold clampedScore. apply clamp_bounds. lra. Qed.

Lemma baseConfidence_bounds (text : jsstring) :
  3 # 10 <= snd (baseScore text) <= 95 # 100.
Proof.
  unfold baseScore.
  destruct (eqb (totalScore (tallyOf text)) 0); cbn [snd].
  - split; lra.
  - match goal with |- _ <= Math_min _ (Math_max _ ?x) <= _ =>
      pose proof (@clamp_bounds' 0.4 0.95 x) as B end.
    lra.
Qed.

Lemma score_bounds (text : jsstring) :
  0 <= ScoreResult.score (calculateSentimentScore text) <= 1.
Proof.
  pose proof (clampedScore_bounds text) as [L U].
  cbn [calculateSentimentScore ScoreResult.score].
  rewrite parseFloat_toFixed3_nonneg by assumption.
  pose proof (@round3_ge 0 (clampedScore text)) as G.
  pose proof (@round3_le 1000 (clampedScore text)) as H.
  split; [apply Qle_trans with (0 # 1000) | apply Qle_trans with (1000 # 1000)];
    try (apply G; lra); try (apply H; lra); lra.
Qed.

Lemma confidence_bounds (text : jsstring) :
  3 # 10 <= ScoreResult.confidence (calculateSentimentScore text) <= 95 # 100.
Proof.
  pose proof (baseConfidence_bounds text) as [L U].
  cbn [calculateSentimentScore ScoreResult.confidence].
  rewrite parseFloat_toFixed3_nonneg by lra.
  pose proof (@round3_ge 300 (snd (baseScore text))) as G.
  pose proof (@round3_le 950 (snd (baseScore text))) as H.
  split; [apply Qle_trans with (300 # 1000) | apply Qle_trans with (950 # 1000)];
    try (apply G; lra); try (apply H; lra); lra.
Qed.

Lemma labelOf_spec (s : Q) :
  (labelOf s = POSITIVE <-> 0.6 <= s) /\
  (labelOf s = NEGATIVE <-> s <= 0.4) /\
  (labelOf s = NEUTRAL <-> 0.4 < s /\ s < 0.6).
Proof.
  unfold labelOf.
  destruct (leb_cases 0.6 s) as [[E H] | [E H]]; rewrite E.
  - split; [| split]; split; intros A; try discriminate; try lra; auto.
  - destruct (leb_cases s 0.4) as [[E' H'] | [E' H']]; rewrite E';
      (split; [| split]; split; intros A; try discriminate; try lra; auto).
Qed.


Lemma analyzeSentiment_bounds (this : service) (text : value) :
  exists r,
    analyzeSentiment this text = Normal r /\
    0 <= SentimentResult.sentiment_score r <= 1 /\
    0.3 <= SentimentResult.confidence r <= 0.95.
Proof.
  rewrite analyzeSentiment_value. eexists. split; [reflexivity |].
  destruct (isInitialized this).
  - cbn [SentimentResult.sentiment_score SentimentResult.confidence].
    pose proof (score_bounds (preprocessText text)).
    pose proof (confidence_bounds (preprocessText text)).
    split; lra.
  - cbn. split; split; lra.
Qed.




(** The same on the [analyzeSentiment] path, where no punctuation
    survives: the clamped score is about 0.4005, the returned one 0.4. *)
Lemma label_not_threshold_analyzeSentiment :
  exists r, analyzeSentiment (construct None) (VStr longReview) = Normal r /\
    SentimentResult.sentiment_label r = NEUTRAL /\
    SentimentResult.sentiment_score r == 0.4.
Proof. eexists. split; [vm_compute; reflexivity |]. vm_compute. split; reflexivity. Qed.

(** ** Texts without lexicon matches *)

Lemma noMatches_base (text : jsstring) :
  noMatches text -> baseScore text = (0.5, 0.3).
Proof.
  unfold noMatches, baseScore, eqb. intros H.
  apply Qeq_bool_iff in H. now rewrite H.
Qed.

Lemma of_nat_pos (n : nat) : (0 <? n)%nat = true -> 1 <= of_nat n.
Proof.
  intros H. apply Nat.ltb_lt in H. unfold of_nat.
  change 1 with (inject_Z 1). rewrite <- Zle_Qle. lia.
Qed.

(** [lra] reads [x / 2] once it is written [x * (1 # 2)]. *)
Ltac halve := unfold Qdiv in *; change (/ 2) with (1 # 2) in *.

Ltac unfold_modifiers :=
  unfold applyContextModifiers, negationModifier, intensifierModifier,
    questionModifier, exclamationModifier, Math_min, Math_max.

(** The neutral base score 0.5 under the four modifiers. *)
Lemma modifiers_at_half (text : jsstring) (s : Q) :
  s == 0.5 ->
  let c := Math_max 0 (Math_min 1 (applyContextModifiers text s)) in
  (hasIntensifier text = false -> Str.countChar "!" text = 0%nat -> c == 0.5) /\
  (hasIntensifier text = true \/ Str.countChar "!" text <> 0%nat -> c <= 0.45).
Proof.
  intros Hs. unfold_modifiers.
  destruct (hasNegation text), (hasIntensifier text),
    (Str.includes text (lit "?"));
    destruct (0 <? Str.countChar "!" text)%nat eqn:Ex;
    try (pose proof (of_nat_pos _ Ex) as Hk);
    (split; [intros A B; try discriminate;
              try (rewrite B in Ex; discriminate)
            | intros [A | A]; try discriminate;
              try (apply Nat.ltb_ge in Ex; exfalso; lia)]);
    cbv zeta; split_leb; halve; lra.
Qed.

Lemma no_match_scores (text : jsstring) :
  noMatches text ->
  let r := calculateSentimentScore text in
  ScoreResult.confidence r == 0.3 /\
  (hasIntensifier text = false -> Str.countChar "!" text = 0%nat ->
   ScoreResult.score r == 0.5 /\ ScoreResult.label r = NEUTRAL) /\
  (hasIntensifier text = true \/ Str.countChar "!" text <> 0%nat ->
   ScoreResult.score r <= 0.45).
Proof.
  intros H r. subst r.
  pose proof (noMatches_base text H) as B.
  pose proof (clampedScore_bounds text) as [L U].
  cbn [calculateSentimentScore ScoreResult.score ScoreResult.confidence
         ScoreResult.label].
  rewrite (parseFloat_toFixed3_nonneg _ L).
  assert (M := @modifiers_at_half text (fst (baseScore text))).
  rewrite B in M |- *. cbn [fst snd] in M |- *.
  specialize (M ltac:(reflexivity)). cbv zeta in M. destruct M as [M1 M2].
  fold (clampedScore text) in M1, M2. unfold clampedScore in M1, M2 |- *.
  rewrite B in *. cbn [fst] in *.
  set (c := Math_max 0 (Math_min 1 (applyContextModifiers text 0.5))) in *.
  split; [vm_compute; reflexivity |]. split.
  - intros A1 A2. specialize (M1 A1 A2). split.
    + pose proof (@round3_ge 500 c) as G. pose proof (@round3_le 500 c) as G'.
      apply Qle_antisym.
      * apply Qle_trans with (500 # 1000); [apply G'; lra | lra].
      * apply Qle_trans with (500 # 1000); [lra | apply G; lra].
    + destruct (labelOf_spec c) as (_ & _ & N). apply N. lra.
  - intros A. specialize (M2 A).
    apply Qle_trans with (450 # 1000); [apply round3_le; lra | lra].
Qed.

(** C2, as the code has it: with zero weighted lexicon matches the
    confidence is exactly 0.3, and the score is exactly 0.5, with the label
    NEUTRAL, when no intensifier occurs anywhere in the text, be it inside
    a longer word ([hasIntensifier] is the code's [text.includes]), and
    the text has no exclamation mark; the empty text is such a text. *)
Theorem no_match_result (text : jsstring) :
  noMatches text ->
  let r := calculateSentimentScore text in
  ScoreResult.confidence r == 0.3 /\
  (hasIntensifier text = false -> Str.countChar "!" text = 0%nat ->
   ScoreResult.score r == 0.5 /\ ScoreResult.label r = NEUTRAL).
Proof.
  intros H r. destruct (no_match_scores text H) as (C & S & _).
  exact (conj C S).
Qed.

(** With an intensifier or an exclamation mark the neutral default is
    treated as a score that is not above 0.5 and is lowered. *)
Lemma no_match_lowered (text : jsstring) :
  noMatches text ->
  hasIntensifier text = true \/ Str.countChar "!" text <> 0%nat ->
  ScoreResult.score (calculateSentimentScore text) <= 0.45.
Proof.
  intros H A. destruct (no_match_scores text H) as (_ & _ & L). exact (L A).
Qed.

(** C2 as stated fails: the text "very" matches no lexicon word, and its
    score is 0.4, not 0.5. *)
Lemma no_match_score_not_half :
  noMatches (lit "very") /\
  ~ ScoreResult.score (calculateSentimentScore (lit "very")) == 0.5.
Proof. split; [vm_compute; reflexivity | vm_compute; discriminate]. Qed.

(** The intensifier is looked for as a substring: "every day" has no
    lexicon word and no intensifier among its words, the check finds "very"
    inside "every", and the score is 0.4 with the label NEGATIVE. *)
Lemma intensifier_inside_word :
  noMatches (lit "every day") /\
  forallb (fun word => negb (Arr.includes intensifiers word))
    (Str.split_space (lit "every day")) = true /\
  hasIntensifier (lit "every day") = true /\
  ScoreResult.score (calculateSentimentScore (lit "every day")) == 0.4 /\
  ScoreResult.label (calculateSentimentScore (lit "every day")) = NEGATIVE.
Proof. repeat split; vm_compute; reflexivity. Qed.

(** At the empty text. *)
Lemma no_match_result_witness :
  noMatches emptyText /\
  ScoreResult.confidence (calculateSentimentScore emptyText) == 0.3 /\
  ScoreResult.score (calculateSentimentScore emptyText) == 0.5 /\
  ScoreResult.label (calculateSentimentScore emptyText) = NEUTRAL.
Proof.
  assert (H : noMatches emptyText) by (vm_compute; reflexivity).
  destruct (no_match_result emptyText H) as (C & S).
  destruct (S eq_refl eq_refl) as [S1 S2].
  exact (conj H (conj C (conj S1 S2))).
Defined.

(** ** Negation *)

Lemma includes_of_suffix (text suffix word : jsstring) :
  In suffix (suffixes text) -> Str.startsWith suffix word = true ->
  Str.includes text word = true.
Proof.
  induction text as [| c r IH]; cbn [suffixes]; intros [<- | H] S.
  - cbn [Str.includes]. now rewrite S.
  - destruct H.
  - cbn [Str.includes]. now rewrite S.
  - cbn [Str.includes]. rewrite (IH H S). apply orb_true_r.
Qed.

Lemma hasNegation_of_occurrence (text : jsstring) :
  (1 <= negationOccurrences text)%nat -> hasNegation text = true.
Proof.
  unfold negationOccurrences. intros H.
  destruct (filter _ (suffixes text)) as [| suffix rest] eqn:F;
    [cbn in H; lia |].
  assert (I : In suffix (suffix :: rest)) by apply in_eq.
  rewrite <- F in I. apply filter_In in I. destruct I as [I E].
  apply existsb_exists in E. destruct E as (word & W & S).
  apply existsb_exists. exists word. split; [exact W |].
  exact (includes_of_suffix text suffix word I S).
Qed.

(** C6: a text in which negation words occur at two or more places has
    its score inverted once, [1 - score]: the check is one boolean over
    the negation list, so the second negation does not invert back, and
    the result differs from the score that came in unless that is 0.5. *)
Theorem negation_inverts_once (text : jsstring) (s : Q) :
  (2 <= negationOccurrences text)%nat ->
  negationModifier text s = 1 - s /\
  applyContextModifiers text s =
    exclamationModifier text
      (questionModifier text (intensifierModifier text (1 - s))) /\
  (~ s == 0.5 -> ~ negationModifier text s == s).
Proof.
  intros H.
  assert (N : hasNegation text = true) by (apply hasNegation_of_occurrence; lia).
  assert (E : negationModifier text s = 1 - s)
    by (unfold negationModifier; now rewrite N).
  split; [exact E |]. split.
  - unfold applyContextModifiers. now rewrite E.
  - rewrite E. intros A B. apply A. lra.
Qed.

(** At "never not good": two negations, one inversion. *)
Lemma negation_inverts_once_witness :
  (2 <= negationOccurrences (lit "never not good"))%nat /\
  negationModifier (lit "never not good") 0.9 = 1 - 0.9.
Proof.
  assert (H : (2 <= negationOccurrences (lit "never not good"))%nat)
    by (vm_compute; lia).
  exact (conj H (proj1 (negation_inverts_once (lit "never not good") 0.9 H))).
Defined.

(** C3 at the text "annoying": its one word is in the negative lexicon and
    is no negation word, yet the negation check finds "no" inside it and
    inverts the score to 0.7, above 0.5. *)
Theorem negative_word_inverted :
  let text := lit "annoying" in
  let r := calculateSentimentScore text in
  onlyNegativeWords text = true /\
  noNegationWord text = true /\
  hasNegation text = true /\
  ScoreResult.score r == 0.7 /\
  ScoreResult.label r = POSITIVE /\
  ~ ScoreResult.score r < 0.5.
Proof.
  vm_compute. repeat split; try reflexivity; discriminate.
Qed.

(** ** The worked example *)

(** C7 at its input: preprocessing removes the exclamation mark, two
    positive keywords match, the base score is 0.9, and no exclamation
    bonus is added: the returned score is 0.9, the label POSITIVE. *)
Theorem excellent_amazing_example :
  let text := VStr (lit "This product is excellent and amazing!") in
  let cleanText := preprocessText text in
  cleanText = lit "this product is excellent and amazing" /\
  positiveScore (tallyOf cleanText) == 2 /\
  negativeScore (tallyOf cleanText) == 0 /\
  neutralScore (tallyOf cleanText) == 0 /\
  fst (baseScore cleanText) == 0.9 /\
  Str.countChar "!" cleanText = 0%nat /\
  applyContextModifiers cleanText (fst (baseScore cleanText)) == 0.9 /\
  analyzeSentiment (construct None) text =
    Normal {| SentimentResult.sentiment_score := 0.9;
              SentimentResult.sentiment_label := POSITIVE;
              SentimentResult.confidence := 4 # 5;
              SentimentResult.keywords := [lit "excellent"; lit "amazing"] |}.
Proof.
  vm_compute. repeat split; reflexivity.
Qed.

(** ** Texts of negative words *)

Lemma Str_eqb_eq (a b : jsstring) : Str.eqb a b = true <-> a = b.
Proof.
  revert b. induction a as [| x a IH]; intros [| y b]; cbn [Str.eqb];
    split; intros H; try reflexivity; try discriminate.
  - apply andb_prop in H as [H1 H2]. apply Ascii.eqb_eq in H1.
    apply IH in H2. congruence.
  - injection H as -> ->. rewrite Ascii.eqb_refl. cbn. now apply IH.
Qed.

Lemma Arr_includes_In (l : list jsstring) (word : jsstring) :
  Arr.includes l word = true -> In word l.
Proof.
  unfold Arr.includes. intros H. apply existsb_exists in H as (w & I & E).
  apply Str_eqb_eq in E. now subst.
Qed.

(** A word of the negative lexicon has more than two characters and is
    not a word of the positive lexicon. *)
Lemma negative_word_counts (word : jsstring) :
  Arr.includes negativeKeywords word = true ->
  (2 <? List.length word)%nat = true /\ Arr.includes positiveKeywords word = false.
Proof.
  intros H. apply Arr_includes_In in H.
  assert (A : forallb (fun w => (2 <? List.length w)%nat
                                && negb (Arr.includes positiveKeywords w))
                negativeKeywords = true) by (vm_compute; reflexivity).
  rewrite forallb_forall in A. specialize (A word H).
  apply andb_prop in A as [A1 A2]. apply negb_true_iff in A2. now split.
Qed.

Lemma split_space_not_empty (s : jsstring) : Str.split_space s <> [].
Proof.
  induction s as [| c r IH]; cbn [Str.split_space]; [discriminate |].
  destruct (Ascii.eqb c Str.space); [discriminate |].
  destruct (Str.split_space r); [congruence | discriminate].
Qed.

Lemma tally_of_negative_words (words : list jsstring) : forall t : tally,
  forallb (Arr.includes negativeKeywords) words = true ->
  let t' := fold_left countWord words t in
  positiveScore t' = positiveScore t /\
  neutralScore t' = neutralScore t /\
  negativeScore t' == negativeScore t + of_nat (List.length words).
Proof.
  induction words as [| w r IH]; intros t A.
  - cbv zeta. cbn [fold_left List.length].
    split; [reflexivity | split; [reflexivity |]].
    unfold of_nat. change (inject_Z (Z.of_nat 0)) with 0. lra.
  - cbn [forallb] in A. apply andb_prop in A as [Aw Ar].
    destruct (negative_word_counts w Aw) as [_ P].
    cbn [fold_left]. destruct (IH (countWord t w) Ar) as (E1 & E2 & E3).
    cbv zeta. rewrite E1, E2, E3. unfold countWord. rewrite P, Aw.
    cbn [positiveScore neutralScore negativeScore].
    split; [reflexivity | split; [reflexivity |]].
    unfold of_nat. cbn [List.length].
    rewrite Nat2Z.inj_succ, <- Z.add_1_r, inject_Z_plus.
    change (inject_Z 1) with 1. lra.
Qed.

Lemma wordsOf_negative (text : jsstring) :
  onlyNegativeWords text = true -> wordsOf text = Str.split_space text.
Proof.
  unfold onlyNegativeWords, wordsOf. intros A.
  induction (Str.split_space text) as [| w r IH]; [reflexivity |].
  cbn [forallb] in A. apply andb_prop in A as [Aw Ar].
  cbn [filter]. destruct (negative_word_counts w Aw) as [L _].
  now rewrite L, (IH Ar).
Qed.

Lemma baseScore_negative (text : jsstring) :
  onlyNegativeWords text = true -> fst (baseScore text) == 0.3.
Proof.
  intros A. pose proof (wordsOf_negative text A) as W.
  unfold baseScore, tallyOf. rewrite W.
  destruct (tally_of_negative_words (Str.split_space text) emptyTally A)
    as (P & U & N).
  set (t := fold_left countWord (Str.split_space text) emptyTally) in *.
  assert (L : 1 <= of_nat (List.length (Str.split_space text))).
  { pose proof (split_space_not_empty text) as NE.
    destruct (Str.split_space text); [congruence |].
    unfold of_nat. change 1 with (inject_Z 1). rewrite <- Zle_Qle.
    cbn [List.length]. lia. }
  cbn [positiveScore neutralScore negativeScore emptyTally] in P, U, N.
  assert (T : totalScore t == negativeScore t).
  { unfold totalScore. rewrite P, U. lra. }
  assert (NZ : ~ negativeScore t == 0) by (rewrite N; lra).
  destruct (eqb (totalScore t) 0) eqn:Z.
  - unfold eqb in Z. apply Qeq_bool_iff in Z. rewrite T in Z. contradiction.
  - cbn [fst]. rewrite P, T. unfold Qdiv.
    rewrite (Qmult_inv_r _ NZ). lra.
Qed.

(** A score of at most 0.3 stays at most 0.4 under the modifiers when no
    negation is found. *)
Lemma modifiers_keep_negative (text : jsstring) (s : Q) :
  s == 0.3 -> hasNegation text = false ->
  Math_max 0 (Math_min 1 (applyContextModifiers text s)) <= 0.4.
Proof.
  intros Hs N. unfold_modifiers. rewrite N.
  destruct (hasIntensifier text), (Str.includes text (lit "?"));
    destruct (0 <? Str.countChar "!" text)%nat eqn:Ex;
    try (pose proof (of_nat_pos _ Ex) as Hk);
    cbv zeta; split_leb; halve; lra.
Qed.

(** Where the negation check finds nothing, a text of negative words is
    scored below 0.5 and labelled NEGATIVE. *)
Lemma negative_words_without_negation (text : jsstring) :
  onlyNegativeWords text = true -> hasNegation text = false ->
  ScoreResult.score (calculateSentimentScore text) < 0.5 /\
  ScoreResult.label (calculateSentimentScore text) = NEGATIVE.
Proof.
  intros A N.
  pose proof (modifiers_keep_negative text _ (baseScore_negative text A) N) as M.
  fold (clampedScore text) in M.
  pose proof (clampedScore_bounds text) as [L U].
  cbn [calculateSentimentScore ScoreResult.score ScoreResult.label].
  rewrite (parseFloat_toFixed3_nonneg _ L). split.
  - apply Qle_lt_trans with (400 # 1000); [apply round3_le; lra | lra].
  - destruct (labelOf_spec (clampedScore text)) as (_ & G & _). apply G. lra.
Qed.

(** ** analyzeBatch *)

Lemma mapM_total {A B : Type} (f : A -> completion B) (l : list A) :
  (forall a, exists b, f a = Normal b) ->
  exists bs, mapM f l = Normal bs /\ map Normal bs = map f l.
Proof.
  intros T. induction l as [| a r (bs & E & M)]; cbn [mapM map].
  - exists []. split; reflexivity.
  - destruct (T a) as [b Eb]. rewrite Eb, E. cbn [bind].
    exists (b :: bs). cbn [map]. rewrite M. split; reflexivity.
Qed.

(** A batch and what follows it make up what was left of the array. *)
Lemma slice_then_rest {A : Type} (l : list A) (i b : Z) :
  (0 <= i)%Z -> (0 < b)%Z ->
  Arr.slice l i (i + b) ++ skipn (Z.to_nat (i + b)) l = skipn (Z.to_nat i) l.
Proof.
  intros Hi Hb. unfold Arr.slice.
  set (len := Z.of_nat (List.length l)).
  assert (Ei : (i <? 0)%Z = false) by (apply Z.ltb_ge; lia).
  assert (Es : (i + b <? 0)%Z = false) by (apply Z.ltb_ge; lia).
  rewrite Ei, Es.
  destruct (Z.le_gt_cases len i) as [Far | Near].
  - rewrite (skipn_all2 l (n := Z.to_nat (Z.min i len))) by (subst len; lia).
    rewrite (skipn_all2 l (n := Z.to_nat (i + b))) by (subst len; lia).
    rewrite (skipn_all2 l (n := Z.to_nat i)) by (subst len; lia).
    now rewrite firstn_nil.
  - replace (Z.min i len) with i by lia.
    destruct (Z.le_gt_cases (i + b) len) as [Fits | Over].
    + replace (Z.min (i + b) len - i)%Z with b by lia.
      replace (Z.to_nat (i + b)) with (Z.to_nat b + Z.to_nat i)%nat by lia.
      rewrite <- skipn_skipn. apply firstn_skipn.
    + replace (Z.min (i + b) len - i)%Z with (len - i)%Z by lia.
      rewrite (skipn_all2 l (n := Z.to_nat (i + b))) by (subst len; lia).
      rewrite app_nil_r. apply firstn_all2.
      rewrite length_skipn. subst len. lia.
Qed.

Lemma analyzeBatch_loop_result (this : service) (texts : list value) :
  (0 < batchSize this)%Z ->
  forall (fuel : nat) (i : Z) (results : list SentimentResult.t),
    (0 <= i)%Z ->
    (Z.max 0 (Z.of_nat (List.length texts) - i) < Z.of_nat fuel)%Z ->
    exists rest,
      analyzeBatch_loop fuel this texts i results = Some (Normal (results ++ rest)) /\
      map Normal rest = map (analyzeSentiment this) (skipn (Z.to_nat i) texts).
Proof.
  intros Hb. induction fuel as [| fuel IH]; intros i results Hi Hf; [lia |].
  cbn [analyzeBatch_loop].
  destruct (Z.ltb_spec i (Z.of_nat (List.length texts))) as [Lt | Ge].
  - destruct (mapM_total (analyzeSentiment this)
                (Arr.slice texts i (i + batchSize this))
                (analyzeSentiment_returns this)) as (batchResults & E & M).
    rewrite E.
    destruct (IH (i + batchSize this)%Z (results ++ batchResults))
      as (rest & E' & M'); [lia | lia |].
    exists (batchResults ++ rest). split.
    + rewrite E'. now rewrite app_assoc.
    + rewrite map_app, M, M', <- map_app.
      now rewrite (slice_then_rest texts i (batchSize this) Hi Hb).
  - exists []. split.
    + now rewrite app_nil_r.
    + rewrite skipn_all2 by lia. reflexivity.
Qed.

(** C4: for a positive batch size, [analyzeBatch] on an array returns one
    result per text, in input order, the i-th being what [analyzeSentiment]
    resolves with on the i-th text, whatever the batch size; on anything
    that is not an array it returns the empty array. *)
Theorem analyzeBatch_in_order (this : service) (texts : list value) (fuel : nat) :
  (0 < batchSize this)%Z ->
  (List.length texts < fuel)%nat ->
  (exists results,
     analyzeBatch fuel this (VArr texts) = Some (Normal results) /\
     List.length results = List.length texts /\
     map Normal results = map (analyzeSentiment this) texts /\
     forall (i : nat) (text : value),
       nth_error texts i = Some text ->
       exists r, nth_error results i = Some r /\
                 analyzeSentiment this text = Normal r) /\
  (forall other : value,
     isArray other = false -> analyzeBatch fuel this other = Some (Normal [])).
Proof.
  intros Hb Hf. split.
  - destruct (analyzeBatch_loop_result this texts Hb fuel 0 [])
      as (results & E & M); [lia | lia |].
    cbn [Z.to_nat skipn app] in E, M.
    exists results. split; [exact E |]. split; [| split; [exact M |]].
    + rewrite <- (length_map Normal results), M. apply length_map.
    + intros i text Hi.
      assert (N : nth_error (map Normal results) i
                  = Some (analyzeSentiment this text)).
      { rewrite M, nth_error_map, Hi. reflexivity. }
      rewrite nth_error_map in N.
      destruct (nth_error results i) as [r |]; [| discriminate].
      exists r. split; [reflexivity |]. cbn in N. congruence.
  - intros other A. destruct other; try reflexivity. discriminate.
Qed.

(** At three texts and batch size 2. *)
Lemma analyzeBatch_in_order_witness :
  exists results,
    analyzeBatch 4 (construct (Some 2%Z))
      (VArr [VStr (lit "a"); VStr (lit "b"); VStr (lit "c")]) = Some (Normal results) /\
    List.length results = 3%nat.
Proof.
  destruct (analyzeBatch_in_order (construct (Some 2%Z))
              [VStr (lit "a"); VStr (lit "b"); VStr (lit "c")] 4
              ltac:(reflexivity) ltac:(cbn; lia))
    as [(results & E & L & _) _].
  exists results. exact (conj E L).
Defined.

(** The batch size is taken from the environment as any integer but
    zero; with a negative one the index never reaches the length and the
    loop never ends. *)
Lemma analyzeBatch_negative_batch_size (fuel : nat) :
  analyzeBatch fuel (construct (Some (-1)%Z)) (VArr [VStr (lit "a")]) = None.
Proof.
  unfold analyzeBatch. generalize (@nil SentimentResult.t).
  assert (G : forall (i : Z) (results : list SentimentResult.t),
            (i <= 0)%Z ->
            analyzeBatch_loop fuel (construct (Some (-1)%Z)) [VStr (lit "a")] i results
            = None).
  { induction fuel as [| fuel IH]; intros i results Hi; [reflexivity |].
    cbn [analyzeBatch_loop].
    destruct (Z.ltb_spec i (Z.of_nat (List.length [VStr (lit "a")]))) as [_ | Ge];
      [| cbn in Ge; lia].
    destruct (mapM_total (analyzeSentiment (construct (Some (-1)%Z)))
                (Arr.slice [VStr (lit "a")] i
                   (i + batchSize (construct (Some (-1)%Z))))
                (analyzeSentiment_returns _)) as (batchResults & E & _).
    rewrite E. apply IH. cbn. lia. }
  intros results. apply G. lia.
Qed.

(** C4 as stated fails: the service built with [BATCH_SIZE=-1] has the
    batch size -1, and [analyzeBatch] on the array of the one text "a"
    returns nothing, however long it runs. *)
Lemma analyzeBatch_never_returns :
  batchSize (construct (Some (-1)%Z)) = (-1)%Z /\
  forall fuel : nat,
    analyzeBatch fuel (construct (Some (-1)%Z)) (VArr [VStr (lit "a")]) = None.
Proof. split; [reflexivity | exact analyzeBatch_negative_batch_size]. Qed.

(** ** Emotion analysis *)

Section FirstMaximum.

Variable E : Type.
Variable key : E -> jsstring.
Variable cnt : E -> Z.

Let entryOf (e : E) : jsstring * Obj.propval := (key e, Obj.PNum (cnt e)).

(** Sorting numeric entries by descending value puts first the earliest
    entry of greatest value. *)
Lemma sort_first_maximum (es : list E) :
  es <> [] ->
  exists before e after rest,
    es = before ++ e :: after /\
    Arr.sort byValueDescending (map entryOf es) = entryOf e :: rest /\
    (forall x, In x before -> (cnt x < cnt e)%Z) /\
    (forall x, In x after -> (cnt x <= cnt e)%Z).
Proof.
  induction es as [| x r IH]; intros NE; [congruence |].
  destruct r as [| y r'].
  - exists [], x, [], []. cbn. repeat split; intros ? [].
  - destruct IH as (before & e & after & rest & Er & Es & Hb & Ha);
      [discriminate |].
    cbn [map Arr.sort fold_right] in Es |- *.
    unfold Arr.sort in Es. rewrite Es.
    cbn [Arr.insert byValueDescending Obj.toNumber snd entryOf].
    destruct (Z.ltb_spec 0 (cnt e - cnt x)) as [Lt | Ge].
    + exists (x :: before), e, after, (Arr.insert byValueDescending (entryOf x) rest).
      rewrite Er. repeat split; auto.
      intros z [<- | Hz]; [lia | auto].
    + exists [], x, (y :: r'), (entryOf e :: rest).
      repeat split; [intros ? [] |].
      intros z Hz. rewrite Er in Hz. apply in_app_or in Hz.
      destruct Hz as [Hz | [<- | Hz]].
      * specialize (Hb z Hz). lia.
      * lia.
      * specialize (Ha z Hz). lia.
Qed.

End FirstMaximum.

Lemma setting_emotions (cnt : jsstring * list jsstring -> Z) :
  fold_left
    (fun emotionScores entry =>
       Obj.set emotionScores (fst entry) (Obj.PNum (cnt entry)))
    emotions Obj.empty
  = map (fun entry => (fst entry, Obj.PNum (cnt entry))) emotions.
Proof. vm_compute. reflexivity. Qed.

Lemma entries_of_emotions (cnt : jsstring * list jsstring -> Z) :
  Obj.entries (map (fun entry => (fst entry, Obj.PNum (cnt entry))) emotions)
  = map (fun entry => (fst entry, Obj.PNum (cnt entry))) emotions.
Proof. vm_compute. reflexivity. Qed.

Lemma scoreEmotions_eq (cleanText : jsstring) :
  scoreEmotions cleanText
  = map (fun entry => (fst entry, Obj.PNum (emotionCount cleanText entry))) emotions.
Proof. exact (setting_emotions (emotionCount cleanText)). Qed.

Lemma emotionCount_nonneg (cleanText : jsstring) (entry : jsstring * list jsstring) :
  (0 <= emotionCount cleanText entry)%Z.
Proof. unfold emotionCount. lia. Qed.

Lemma category_not_neutral (entry : jsstring * list jsstring) :
  In entry emotions -> Str.eqb (fst entry) (lit "neutral") = false.
Proof.
  intros I.
  assert (A : forallb (fun e => negb (Str.eqb (fst e) (lit "neutral"))) emotions
              = true) by (vm_compute; reflexivity).
  rewrite forallb_forall in A. specialize (A entry I).
  now apply negb_true_iff in A.
Qed.

(** C10, as the code has it: the score of each of the six categories is
    the number of its keywords that occur in the preprocessed text; the
    dominant emotion is "neutral" when every score is zero, and otherwise
    the category of highest score, the earliest one in the order joy,
    anger, fear, sadness, surprise, trust when several share it. *)
Theorem dominant_emotion_first_maximum (text : value) :
  let cleanText := preprocessText text in
  exists r,
    getEmotionAnalysis text = Normal r /\
    EmotionResult.emotion_scores r =
      map (fun entry => (fst entry, Obj.PNum (emotionCount cleanText entry))) emotions /\
    ((forall entry, In entry emotions -> emotionCount cleanText entry = 0%Z) ->
     EmotionResult.dominant_emotion r = lit "neutral") /\
    ((exists entry, In entry emotions /\ emotionCount cleanText entry <> 0%Z) ->
     exists before e after,
       emotions = before ++ e :: after /\
       EmotionResult.dominant_emotion r = fst e /\
       EmotionResult.dominant_emotion r <> lit "neutral" /\
       (0 < emotionCount cleanText e)%Z /\
       (forall x, In x before -> (emotionCount cleanText x < emotionCount cleanText e)%Z) /\
       (forall x, In x after -> (emotionCount cleanText x <= emotionCount cleanText e)%Z)).
Proof.
  intros cleanText.
  destruct (sort_first_maximum _ fst (emotionCount cleanText) emotions)
    as (before & e & after & rest & Ee & Es & Hb & Ha); [discriminate |].
  unfold getEmotionAnalysis. fold cleanText.
  rewrite scoreEmotions_eq, entries_of_emotions, Es.
  eexists. split; [reflexivity |].
  cbn [EmotionResult.emotion_scores EmotionResult.dominant_emotion snd fst].
  split; [reflexivity |]. split.
  - intros Z0. rewrite (Z0 e); [reflexivity |].
    rewrite Ee. apply in_elt.
  - intros (entry & I & NZ).
    pose proof (emotionCount_nonneg cleanText entry) as P.
    assert (G : (emotionCount cleanText entry <= emotionCount cleanText e)%Z).
    { rewrite Ee in I. apply in_app_or in I. destruct I as [I | [<- | I]].
      - specialize (Hb entry I). lia.
      - lia.
      - exact (Ha entry I). }
    exists before, e, after. split; [exact Ee |].
    destruct (Z.ltb_spec 0 (emotionCount cleanText e)); [| lia].
    split; [reflexivity |]. split; [| repeat split; auto].
    assert (Ie : In e emotions) by (rewrite Ee; apply in_elt).
    pose proof (category_not_neutral e Ie) as NN.
    intros Q. rewrite Q in NN. vm_compute in NN. discriminate.
Qed.

(** C10 as stated fails: in "happy angry" joy and anger both score 1, and
    the dominant emotion is "joy", not "neutral". *)
Lemma tied_emotions_not_neutral :
  exists r,
    getEmotionAnalysis (VStr (lit "happy angry")) = Normal r /\
    Obj.own (EmotionResult.emotion_scores r) (lit "joy") = Some (Obj.PNum 1) /\
    Obj.own (EmotionResult.emotion_scores r) (lit "anger") = Some (Obj.PNum 1) /\
    EmotionResult.dominant_emotion r = lit "joy" /\
    EmotionResult.dominant_emotion r <> lit "neutral".
Proof.
  eexists. split; [vm_compute; reflexivity |].
  vm_compute. repeat split; discriminate.
Qed.

(** At a text with one anger keyword and one joy keyword. *)
Lemma dominant_emotion_first_maximum_witness :
  let text := VStr (lit "so angry and happy") in
  exists r,
    getEmotionAnalysis text = Normal r /\
    exists before e after,
      emotions = before ++ e :: after /\
      EmotionResult.dominant_emotion r = fst e /\
      (0 < emotionCount (preprocessText text) e)%Z.
Proof.
  intros text.
  destruct (dominant_emotion_first_maximum text) as (r & E & _ & _ & D).
  destruct D as (before & e & after & Ee & Ed & _ & P & _).
  { exists (lit "joy", map lit ["happy"; "excited"; "thrilled"; "delighted";
                                "pleased"; "satisfied"]).
    split; [left; reflexivity | vm_compute; discriminate]. }
  exists r. split; [exact E |].
  exists before, e, after. exact (conj Ee (conj Ed P)).
Defined.

(** ** Keyword extraction *)

(** C9 at the text "constructor hello hello": the word "constructor" is
    looked up through the prototype chain, so what is stored for it is a
    string and not a count; the comparator gives [NaN] against it, the
    order of creation is kept, and the word that occurs once comes before
    the word that occurs twice.  The empty text gives no keywords. *)
Theorem keywords_not_by_frequency :
  let text := VStr (lit "constructor hello hello") in
  frequency text (lit "constructor") = 1%nat /\
  frequency text (lit "hello") = 2%nat /\
  wordFrequencies text =
    [(lit "constructor", Obj.PStr (lit "function Object() { [native code] }1"));
     (lit "hello", Obj.PNum 2)] /\
  extractKeywords text 10 = [lit "constructor"; lit "hello"] /\
  extractKeywords (VStr emptyText) 10 = [].
Proof. vm_compute. repeat split; reflexivity. Qed.

(** ** Counting words in an object *)

Lemma own_update_same (o : Obj.object) (key : jsstring) (v : Obj.propval) :
  Obj.own (Obj.update o key v) key = Some v.
Proof.
  induction o as [| [k w] r IH]; cbn [Obj.update Obj.own].
  - now rewrite (proj2 (Str_eqb_eq key key) eq_refl).
  - destruct (Str.eqb k key) eqn:E; cbn [Obj.own]; rewrite E; auto.
Qed.

Lemma own_update_other (o : Obj.object) (key other : jsstring) (v : Obj.propval) :
  other <> key -> Obj.own (Obj.update o key v) other = Obj.own o other.
Proof.
  intros NE. induction o as [| [k w] r IH]; cbn [Obj.update Obj.own].
  - destruct (Str.eqb key other) eqn:E; [| reflexivity].
    apply Str_eqb_eq in E. congruence.
  - destruct (Str.eqb k key) eqn:E; cbn [Obj.own].
    + apply Str_eqb_eq in E. subst k.
      destruct (Str.eqb key other) eqn:E'; [| reflexivity].
      apply Str_eqb_eq in E'. congruence.
    + now rewrite IH.
Qed.

Lemma own_none_not_key (o : Obj.object) (key : jsstring) :
  Obj.own o key = None <-> ~ In key (map fst o).
Proof.
  induction o as [| [k w] r IH]; cbn [Obj.own map fst In]; [tauto |].
  destruct (Str.eqb k key) eqn:E.
  - apply Str_eqb_eq in E. split; [discriminate | tauto].
  - assert (k <> key) by (intros ->; rewrite (proj2 (Str_eqb_eq key key) eq_refl) in E;
                          discriminate).
    tauto.
Qed.

Lemma own_some_key (o : Obj.object) (key : jsstring) (v : Obj.propval) :
  Obj.own o key = Some v -> In key (map fst o).
Proof.
  intros E. destruct (in_dec (list_eq_dec ascii_dec) key (map fst o)) as [I | N];
    [exact I |].
  apply own_none_not_key in N. congruence.
Qed.

Lemma own_of_entry (o : Obj.object) (key : jsstring) (v : Obj.propval) :
  NoDup (map fst o) -> In (key, v) o -> Obj.own o key = Some v.
Proof.
  induction o as [| [k w] r IH]; cbn [map fst Obj.own In]; intros ND I; [tauto |].
  inversion ND as [| ? ? NI ND']; subst.
  destruct I as [I | I].
  - injection I as -> ->. now rewrite (proj2 (Str_eqb_eq key key) eq_refl).
  - destruct (Str.eqb k key) eqn:E; [| auto].
    apply Str_eqb_eq in E. subst k. destruct NI.
    apply (in_map fst) in I. exact I.
Qed.

Lemma keys_update (o : Obj.object) (key : jsstring) (v : Obj.propval) :
  map fst (Obj.update o key v)
  = match Obj.own o key with
    | Some _ => map fst o
    | None => map fst o ++ [key]
    end.
Proof.
  induction o as [| [k w] r IH]; cbn [Obj.update Obj.own map fst app]; [reflexivity |].
  destruct (Str.eqb k key) eqn:E; cbn [map fst]; [reflexivity |].
  rewrite IH. now destruct (Obj.own r key).
Qed.

Lemma nodup_update (o : Obj.object) (key : jsstring) (v : Obj.propval) :
  NoDup (map fst o) -> NoDup (map fst (Obj.update o key v)).
Proof.
  intros ND. rewrite keys_update. destruct (Obj.own o key) eqn:E; [exact ND |].
  apply own_none_not_key in E.
  apply NoDup_app; [exact ND | repeat constructor; intros [] | ].
  intros x I [<- | []]. contradiction.
Qed.

Lemma counts_update (o : Obj.object) (key : jsstring) (n : Z) :
  forallb isCount o = true -> forallb isCount (Obj.update o key (Obj.PNum n)) = true.
Proof.
  induction o as [| [k w] r IH]; cbn [Obj.update forallb]; intros C; [reflexivity |].
  apply andb_prop in C as [C1 C2].
  destruct (Str.eqb k key); cbn [forallb]; [now rewrite C2 |].
  now rewrite C1, (IH C2).
Qed.

Lemma storedCount_of_counts (o : Obj.object) (key : jsstring) :
  forallb isCount o = true ->
  Obj.own o key = None \/ Obj.own o key = Some (Obj.PNum (storedCount o key)).
Proof.
  unfold storedCount.
  induction o as [| [k w] r IH]; cbn [Obj.own forallb]; intros C; [now left |].
  apply andb_prop in C as [C1 C2].
  destruct (Str.eqb k key); [| auto].
  destruct w; [now right | discriminate].
Qed.

(** On a key that is not inherited, and with counts only, the counting
    step is the increment of a map. *)
Lemma countFrequency_ordinary (o : Obj.object) (word : jsstring) :
  forallb isCount o = true -> Obj.inherited word = None ->
  (3 <? List.length word)%nat = true ->
  countFrequency o word = Obj.update o word (Obj.PNum (storedCount o word + 1)).
Proof.
  intros C I L. unfold countFrequency, Obj.set, Obj.get. rewrite L.
  assert (P : Str.eqb word Obj.protoKey = false).
  { unfold Obj.inherited in I. now destruct (Str.eqb word Obj.protoKey). }
  rewrite P, I.
  destruct (storedCount_of_counts o word C) as [E | E]; rewrite E.
  - unfold storedCount. now rewrite E.
  - reflexivity.
Qed.

Lemma counting_words (words : list jsstring) : forall o : Obj.object,
  forallb isCount o = true -> NoDup (map fst o) ->
  (forall w, In w words -> (3 <? List.length w)%nat = true /\ Obj.inherited w = None) ->
  let o' := fold_left countFrequency words o in
  forallb isCount o' = true /\
  NoDup (map fst o') /\
  (forall key, storedCount o' key = (storedCount o key + occurrences key words)%Z) /\
  (forall key, In key (map fst o') <-> In key (map fst o) \/ In key words).
Proof.
  induction words as [| w r IH]; intros o C ND H.
  - cbn. repeat split; auto; try tauto. intros key. unfold occurrences. cbn. lia.
  - destruct (H w (in_eq _ _)) as [L I].
    cbn [fold_left]. rewrite (countFrequency_ordinary o w C I L).
    set (o1 := Obj.update o w (Obj.PNum (storedCount o w + 1))).
    destruct (IH o1 (counts_update o w _ C) (nodup_update o w _ ND)
                (fun x Hx => H x (in_cons _ _ _ Hx))) as (C' & ND' & V' & K').
    cbv zeta. repeat split; auto.
    + intros key. rewrite V'. unfold occurrences. cbn [filter].
      destruct (Str.eqb key w) eqn:E.
      * apply Str_eqb_eq in E. subst key. unfold storedCount at 1. subst o1.
        rewrite own_update_same. cbn [List.length]. lia.
      * assert (NE : key <> w)
          by (intros ->; rewrite (proj2 (Str_eqb_eq w w) eq_refl) in E; discriminate).
        unfold storedCount at 1. subst o1. rewrite (own_update_other o w key _ NE).
        fold (storedCount o key). lia.
    + intros K. apply K' in K. subst o1. rewrite keys_update in K.
      destruct K as [K | K]; [| right; now right].
      destruct (Obj.own o w); [now left |].
      apply in_app_or in K as [K | [<- | []]]; [now left | right; now left].
    + intros K. apply K'. subst o1.
      destruct K as [K | [<- | K]]; [| | now right].
      * left. rewrite keys_update.
        destruct (Obj.own o w); [exact K | apply in_or_app; now left].
      * left. apply (own_some_key _ _ (Obj.PNum (storedCount o w + 1))).
        apply own_update_same.
Qed.

(** ** Sorting entries *)

Lemma insert_permutation {A : Type} (cmp : A -> A -> option Z) (x : A) (l : list A) :
  Permutation (Arr.insert cmp x l) (x :: l).
Proof.
  induction l as [| y r IH]; cbn [Arr.insert]; [reflexivity |].
  destruct (cmp x y) as [v |]; [| reflexivity].
  destruct (0 <? v)%Z; [| reflexivity].
  rewrite IH. apply perm_swap.
Qed.

Lemma sort_permutation {A : Type} (cmp : A -> A -> option Z) (l : list A) :
  Permutation (Arr.sort cmp l) l.
Proof.
  unfold Arr.sort. induction l as [| x r IH]; cbn [fold_right]; [reflexivity |].
  rewrite insert_permutation. now constructor.
Qed.

Lemma filter_split_permutation {A : Type} (f : A -> bool) (l : list A) :
  Permutation (filter f l ++ filter (fun x => negb (f x)) l) l.
Proof.
  induction l as [| x r IH]; cbn [filter]; [reflexivity |].
  destruct (f x); cbn [negb app].
  - now constructor.
  - rewrite <- Permutation_middle. now constructor.
Qed.

Lemma entries_permutation (o : Obj.object) : Permutation (Obj.entries o) o.
Proof.
  unfold Obj.entries. rewrite sort_permutation. apply filter_split_permutation.
Qed.

Lemma byValueDescending_counts (x y : jsstring * Obj.propval) :
  isCount x = true -> isCount y = true ->
  byValueDescending x y = Some (countOf y - countOf x)%Z.
Proof.
  unfold isCount, countOf, byValueDescending.
  destruct (snd x), (snd y); intros; try discriminate. reflexivity.
Qed.

Lemma insert_sorted (x : jsstring * Obj.propval) (l : list (jsstring * Obj.propval)) :
  isCount x = true -> forallb isCount l = true ->
  StronglySorted descending l ->
  StronglySorted descending (Arr.insert byValueDescending x l).
Proof.
  intros Cx. induction l as [| y r IH]; intros C S; cbn [Arr.insert].
  - repeat constructor.
  - cbn [forallb] in C. apply andb_prop in C as [Cy Cr].
    inversion S as [| ? ? Sr Fy]; subst.
    rewrite (byValueDescending_counts x y Cx Cy).
    destruct (Z.ltb_spec 0 (countOf y - countOf x)) as [Lt | Ge].
    + constructor; [now apply IH |].
      apply (Permutation_Forall (Permutation_sym (insert_permutation _ x r))).
      constructor; [unfold descending; lia | exact Fy].
    + constructor; [exact S |].
      constructor; [unfold descending; lia |].
      eapply Forall_impl; [| exact Fy].
      unfold descending. intros z Hz. lia.
Qed.

Lemma sort_sorted (l : list (jsstring * Obj.propval)) :
  forallb isCount l = true ->
  StronglySorted descending (Arr.sort byValueDescending l).
Proof.
  unfold Arr.sort. induction l as [| x r IH]; intros C; cbn [fold_right].
  - constructor.
  - cbn [forallb] in C. apply andb_prop in C as [Cx Cr].
    apply insert_sorted; [exact Cx | | now apply IH].
    apply forallb_forall. intros z Hz.
    apply (Permutation_in _ (sort_permutation byValueDescending r)) in Hz.
    rewrite forallb_forall in Cr. now apply Cr.
Qed.

Lemma sorted_app_inv {A : Type} (R : A -> A -> Prop) (l1 l2 : list A) :
  StronglySorted R (l1 ++ l2) ->
  StronglySorted R l1 /\ forall a b, In a l1 -> In b l2 -> R a b.
Proof.
  induction l1 as [| x r IH]; cbn [app]; intros S.
  - split; [constructor | intros ? ? []].
  - inversion S as [| ? ? Sr F]; subst. destruct (IH Sr) as [S1 H1].
    rewrite Forall_app in F. destruct F as [F1 F2]. split.
    + now constructor.
    + intros a b [<- | Ia] Ib; [| now apply H1].
      rewrite Forall_forall in F2. now apply F2.
Qed.

Lemma sorted_map {A B : Type} (R : A -> A -> Prop) (R' : B -> B -> Prop)
    (f : A -> B) (l : list A) :
  (forall a b, In a l -> In b l -> R a b -> R' (f a) (f b)) ->
  StronglySorted R l -> StronglySorted R' (map f l).
Proof.
  induction l as [| x r IH]; intros H S; cbn [map]; [constructor |].
  inversion S as [| ? ? Sr F]; subst. constructor.
  - apply IH; [| exact Sr]. intros a b Ia Ib. apply H; now right.
  - rewrite Forall_forall in F |- *. intros y Iy.
    apply in_map_iff in Iy as (a & <- & Ia).
    apply H; [now left | now right | now apply F].
Qed.

Lemma slice_from_start {A : Type} (l : list A) (n : Z) :
  (0 <= n)%Z -> Arr.slice l 0 n = firstn (Z.to_nat n) l.
Proof.
  intros H. unfold Arr.slice. cbn [Z.ltb Z.compare].
  assert (E : (n <? 0)%Z = false) by (apply Z.ltb_ge; lia). rewrite E.
  replace (Z.to_nat (Z.min 0 (Z.of_nat (List.length l)))) with 0%nat by lia.
  cbn [skipn].
  destruct (Z.le_gt_cases n (Z.of_nat (List.length l))) as [Le | Gt].
  - f_equal. lia.
  - rewrite !firstn_all2 by lia. reflexivity.
Qed.

(** ** Keywords of a text without inherited names *)

Lemma counting_skips_short (words : list jsstring) : forall o : Obj.object,
  fold_left countFrequency words o
  = fold_left countFrequency
      (filter (fun word => (3 <? List.length word)%nat) words) o.
Proof.
  induction words as [| w r IH]; intros o; [reflexivity |].
  cbn [fold_left filter]. destruct (3 <? List.length w)%nat eqn:L.
  - cbn [fold_left]. apply IH.
  - unfold countFrequency at 2. rewrite L. apply IH.
Qed.

Lemma occurrences_long (text : value) (key : jsstring) :
  (3 <? List.length key)%nat = true ->
  occurrences key (longTokens text) = Z.of_nat (frequency text key).
Proof.
  intros L. unfold occurrences, longTokens, frequency. do 2 f_equal.
  induction (Str.split_space (preprocessText text)) as [| w r IH]; [reflexivity |].
  cbn [filter]. destruct (3 <? List.length w)%nat eqn:Lw; cbn [filter].
  - now rewrite IH.
  - destruct (Str.eqb key w) eqn:E; [| exact IH].
    apply Str_eqb_eq in E. congruence.
Qed.

Lemma in_firstn {A : Type} (n : nat) (l : list A) (x : A) :
  In x (firstn n l) -> In x l.
Proof.
  intros I. rewrite <- (firstn_skipn n l). apply in_or_app. now left.
Qed.

(** Outside the names a plain object inherits, [extractKeywords] is the
    top-N by frequency: for a text none of whose counted tokens is such a
    name, and [maxKeywords >= 0], the result holds at most [maxKeywords]
    distinct tokens longer than three characters, in descending order of
    frequency, and any counted token left out is no more frequent than
    each one returned. *)
Lemma keywords_of_ordinary_text (text : value) (maxKeywords : Z) :
  ordinaryTokens text = true -> (0 <= maxKeywords)%Z ->
  let ks := extractKeywords text maxKeywords in
  (Z.of_nat (List.length ks) <= maxKeywords)%Z /\
  NoDup ks /\
  (forall k, In k ks -> In k (longTokens text)) /\
  StronglySorted (fun a b => (frequency text b <= frequency text a)%nat) ks /\
  (forall w, In w (longTokens text) ->
     In w ks \/
     (Z.of_nat (List.length ks) = maxKeywords /\
      forall k, In k ks -> (frequency text w <= frequency text k)%nat)).
Proof.
  intros O M ks.
  assert (H : forall w, In w (longTokens text) ->
                (3 <? List.length w)%nat = true /\ Obj.inherited w = None).
  { intros w I. split.
    - unfold longTokens in I. now apply filter_In in I as [_ L].
    - unfold ordinaryTokens in O. rewrite forallb_forall in O.
      specialize (O w I). now destruct (Obj.inherited w). }
  destruct (counting_words (longTokens text) Obj.empty eq_refl (NoDup_nil _) H)
    as (C & ND & V & K).
  cbv zeta in C, ND, V, K.
  assert (Eo : fold_left countFrequency (longTokens text) Obj.empty
               = wordFrequencies text).
  { unfold wordFrequencies, longTokens. symmetry. apply counting_skips_short. }
  rewrite Eo in C, ND, V, K. set (o := wordFrequencies text) in *.
  set (sorted := Arr.sort byValueDescending (Obj.entries o)).
  assert (P : Permutation sorted o).
  { subst sorted. rewrite sort_permutation. apply entries_permutation. }
  assert (Co : forallb isCount (Obj.entries o) = true).
  { apply forallb_forall. intros z Hz.
    apply (Permutation_in _ (entries_permutation o)) in Hz.
    rewrite forallb_forall in C. now apply C. }
  pose proof (sort_sorted (Obj.entries o) Co) as S. fold sorted in S.
  set (n := Z.to_nat maxKeywords).
  assert (Ek : ks = map fst (firstn n sorted)).
  { subst ks. unfold extractKeywords. fold o. fold sorted.
    now rewrite (slice_from_start sorted maxKeywords M). }
  assert (Long : forall p, In p sorted -> In (fst p) (longTokens text)).
  { intros p I. apply (Permutation_in _ P) in I.
    apply (in_map fst) in I. apply K in I as [[] | I]. exact I. }
  assert (Freq : forall p, In p sorted ->
                   countOf p = Z.of_nat (frequency text (fst p))).
  { intros p I. pose proof (Long p I) as Lp. destruct (H _ Lp) as [L _].
    rewrite <- (occurrences_long text (fst p) L).
    apply (Permutation_in _ P) in I.
    specialize (V (fst p)). unfold storedCount at 2 in V. cbn in V.
    rewrite <- V. unfold storedCount, countOf.
    destruct p as [k v]. cbn [fst snd].
    now rewrite (own_of_entry o k v ND I). }
  rewrite <- (firstn_skipn n sorted) in S.
  destruct (sorted_app_inv _ _ _ S) as [S1 S12].
  rewrite Ek. repeat split.
  - rewrite length_map, length_firstn. subst n. lia.
  - assert (NDs : NoDup (map fst sorted)).
    { apply (Permutation_NoDup (Permutation_sym (Permutation_map fst P)) ND). }
    rewrite <- (firstn_skipn n sorted), map_app in NDs.
    now apply NoDup_app_remove_r in NDs.
  - intros k I. apply in_map_iff in I as (p & <- & I).
    apply Long. now apply in_firstn in I.
  - apply (sorted_map descending); [| exact S1].
    intros a b Ia Ib D. apply in_firstn in Ia, Ib.
    unfold descending in D. rewrite (Freq a Ia), (Freq b Ib) in D. lia.
  - intros w I.
    assert (Iw : In w (map fst o)) by (apply K; now right).
    apply in_map_iff in Iw as (p & <- & Ip).
    apply (Permutation_in _ (Permutation_sym P)) in Ip.
    pose proof Ip as Ip'.
    rewrite <- (firstn_skipn n sorted) in Ip. apply in_app_or in Ip as [Ip | Ip].
    + left. now apply in_map.
    + right. split.
      * rewrite length_map, length_firstn.
        assert (n < List.length sorted)%nat.
        { destruct (Nat.lt_ge_cases n (List.length sorted)) as [Lt | Ge]; [exact Lt |].
          rewrite (skipn_all2 sorted Ge) in Ip. destruct Ip. }
        subst n. lia.
      * intros k Ik. apply in_map_iff in Ik as (q & <- & Iq).
        specialize (S12 q p Iq Ip). unfold descending in S12.
        rewrite (Freq p Ip'), (Freq q (in_firstn _ _ _ Iq)) in S12. lia.
Qed.

(** ** Failure behaviour *)

Lemma preprocessText_not_string (text : value) :
  isString text = false -> preprocessText text = [].
Proof. destruct text; intros H; try reflexivity. discriminate. Qed.

Lemma slice_nil {A : Type} (start stop : Z) : Arr.slice (@nil A) start stop = [].
Proof. unfold Arr.slice. now rewrite skipn_nil, firstn_nil. Qed.

(** C5, as the code has it: [analyzeSentiment], [analyzeBatch] (for a
    positive batch size), [extractKeywords] and [getEmotionAnalysis] return
    a value for every argument; a text that is not a string gives the
    neutral default (score 0.5, NEUTRAL, confidence 0.3, no keywords), no
    extracted keywords and the dominant emotion "neutral"; an argument
    of [analyzeBatch] that is not an array, and a [brands] argument of
    [extractBrandMentions] that is not an array, give the empty array;
    [calculateSentimentScore] returns a value for every string and raises
    a [TypeError] for anything else. *)
Theorem failure_behaviour (this : service) :
  (forall text, exists r, analyzeSentiment this text = Normal r) /\
  (forall text, isString text = false ->
     analyzeSentiment this text = Normal getDefaultSentiment) /\
  (forall fuel other, isArray other = false ->
     analyzeBatch fuel this other = Some (Normal [])) /\
  ((0 < batchSize this)%Z ->
   forall texts, exists results,
     analyzeBatch (S (List.length texts)) this (VArr texts) = Some (Normal results)) /\
  (forall s, exists r, calculateSentimentScore_any (VStr s) = Normal r) /\
  (forall text, isString text = false ->
     calculateSentimentScore_any text = Throw TypeError) /\
  (forall text maxKeywords, isString text = false ->
     extractKeywords text maxKeywords = []) /\
  (forall text, exists r, getEmotionAnalysis text = Normal r) /\
  (forall text, isString text = false ->
     exists r, getEmotionAnalysis text = Normal r /\
               EmotionResult.dominant_emotion r = lit "neutral") /\
  (forall text brands, isArray brands = false ->
     extractBrandMentions text brands = Normal []).
Proof.
  split; [exact (analyzeSentiment_returns this) |].
  split.
  { intros text S. rewrite analyzeSentiment_value.
    rewrite (preprocessText_not_string text S).
    destruct (isInitialized this); [vm_compute |]; reflexivity. }
  split.
  { intros fuel other A. destruct other; try reflexivity. discriminate. }
  split.
  { intros Hb texts.
    destruct (analyzeBatch_loop_result this texts Hb
                (S (List.length texts)) 0 []) as (results & E & _); [lia | lia |].
    exists results. exact E. }
  split; [intros s; eexists; reflexivity |].
  split; [intros text S; destruct text; try reflexivity; discriminate |].
  split.
  { intros text maxKeywords S. unfold extractKeywords, wordFrequencies.
    rewrite (preprocessText_not_string text S).
    change (Arr.sort _ _) with (@nil (jsstring * Obj.propval)).
    now rewrite slice_nil. }
  split.
  { intros text.
    destruct (sort_first_maximum _ fst (emotionCount (preprocessText text)) emotions)
      as (before & e & after & rest & _ & Es & _); [discriminate |].
    unfold getEmotionAnalysis.
    rewrite scoreEmotions_eq, entries_of_emotions, Es.
    eexists. reflexivity. }
  split.
  { intros text S. unfold getEmotionAnalysis.
    rewrite (preprocessText_not_string text S).
    eexists. split; vm_compute; reflexivity. }
  intros text brands A. destruct brands; try reflexivity. discriminate.
Qed.

(** C5 as stated fails: [calculateSentimentScore(null)] raises. *)
Lemma calculateSentimentScore_null_raises :
  calculateSentimentScore_any VNull = Throw TypeError.
Proof. reflexivity. Qed.

(** [extractBrandMentions] guards [brands] and not [text]. *)
Lemma extractBrandMentions_null_raises :
  extractBrandMentions VNull (VArr [VStr (lit "EchoSense")]) = Throw TypeError.
Proof. reflexivity. Qed.

(** At [null], alone and in an array. *)
Lemma failure_behaviour_witness :
  analyzeSentiment (construct None) VNull = Normal getDefaultSentiment /\
  (exists results,
     analyzeBatch 3 (construct None) (VArr [VNull; VNum 7]) = Some (Normal results)).
Proof.
  destruct (failure_behaviour (construct None)) as (_ & D & _ & B & _).
  split.
  - exact (D VNull eq_refl).
  - exact (B eq_refl [VNull; VNum 7]).
Defined.

(** ** Preprocessing *)

Ltac by_cases_on_char c :=
  destruct c as [[] [] [] [] [] [] [] []]; vm_compute; intuition congruence.

Lemma normalChar_kind (c : ascii) :
  Str.isSpaceChar (normalChar c) = true \/
  (Str.isSpaceChar (normalChar c) = false /\ cleanChar (normalChar c) = true).
Proof. by_cases_on_char c. Qed.

Lemma normalChar_space_iff (c : ascii) :
  Str.isSpaceChar (normalChar c) = negb (Str.isWordChar c).
Proof. by_cases_on_char c. Qed.

Lemma normalChar_clean (c : ascii) : cleanChar c = true -> normalChar c = c.
Proof. by_cases_on_char c. Qed.

Lemma clean_space (c : ascii) :
  cleanChar c = true -> Str.isSpaceChar c = true -> c = Str.space.
Proof. by_cases_on_char c. Qed.

Lemma normalChar_mark (c : ascii) : isMark c = true -> normalChar c = Str.space.
Proof. by_cases_on_char c. Qed.

Lemma mark_not_word (c : ascii) : isMark c = true -> Str.isWordChar c = false.
Proof. by_cases_on_char c. Qed.

Lemma mark_not_clean (c : ascii) : isMark c = true -> cleanChar c = false.
Proof. by_cases_on_char c. Qed.

Lemma normalize_map (s : jsstring) :
  Str.replacePunctuation (Str.toLowerCase s) = map normalChar s.
Proof.
  unfold Str.replacePunctuation, Str.toLowerCase. rewrite map_map. reflexivity.
Qed.

Lemma preprocessString_eq (s : jsstring) :
  preprocessString s = Str.trim (Str.collapseFrom false (map normalChar s)).
Proof. unfold preprocessString, Str.normalizeWhitespace. now rewrite normalize_map. Qed.

Lemma preprocessText_string (s : jsstring) :
  preprocessText (VStr s) = preprocessString s.
Proof. destruct s; reflexivity. Qed.

(** *** The shape of a preprocessed text *)

Lemma collapse_clean (s : jsstring) : forall afterSpace,
  forallb cleanChar (Str.collapseFrom afterSpace (map normalChar s)) = true.
Proof.
  induction s as [| c r IH]; intros afterSpace; [reflexivity |].
  cbn [map Str.collapseFrom].
  destruct (normalChar_kind c) as [S | [S C]]; rewrite S.
  - destruct afterSpace; cbn [forallb]; rewrite ?IH; reflexivity.
  - cbn [forallb]. now rewrite C, IH.
Qed.

Lemma collapse_singleSpaced (s : jsstring) : forall afterSpace,
  singleSpaced afterSpace (Str.collapseFrom afterSpace s) = true.
Proof.
  induction s as [| c r IH]; intros afterSpace; [reflexivity |].
  cbn [Str.collapseFrom].
  destruct (Str.isSpaceChar c) eqn:S.
  - destruct afterSpace; [apply IH |].
    cbn [singleSpaced]. change (Str.isSpaceChar Str.space) with true.
    cbn. apply IH.
  - cbn [singleSpaced]. rewrite S. apply IH.
Qed.

Lemma singleSpaced_weaken (s : jsstring) :
  singleSpaced true s = true -> singleSpaced false s = true.
Proof.
  destruct s as [| c r]; [reflexivity |]. cbn [singleSpaced].
  destruct (Str.isSpaceChar c); [discriminate | auto].
Qed.

Lemma trimStart_shape (s : jsstring) :
  forallb cleanChar s = true -> singleSpaced false s = true ->
  forallb cleanChar (Str.trimStart s) = true /\
  singleSpaced false (Str.trimStart s) = true /\
  startsClean (Str.trimStart s) = true.
Proof.
  induction s as [| c r IH]; intros C S; [repeat split |].
  cbn [Str.trimStart]. cbn [forallb] in C. apply andb_prop in C as [Cc Cr].
  destruct (Str.isSpaceChar c) eqn:Sp.
  - apply IH; [exact Cr |]. cbn [singleSpaced] in S. rewrite Sp in S.
    cbn in S. now apply singleSpaced_weaken.
  - repeat split.
    + cbn [forallb]. now rewrite Cc, Cr.
    + exact S.
    + cbn [startsClean]. now rewrite Sp.
Qed.

Lemma trimEnd_shape (s : jsstring) : forall afterSpace,
  forallb cleanChar s = true -> singleSpaced afterSpace s = true ->
  forallb cleanChar (Str.trimEnd s) = true /\
  singleSpaced afterSpace (Str.trimEnd s) = true /\
  (startsClean s = true -> startsClean (Str.trimEnd s) = true) /\
  endsClean (Str.trimEnd s) = true.
Proof.
  induction s as [| c r IH]; intros afterSpace C S; [repeat split |].
  cbn [forallb] in C. apply andb_prop in C as [Cc Cr].
  cbn [Str.trimEnd].
  assert (Sr : singleSpaced (Str.isSpaceChar c) r = true).
  { cbn [singleSpaced] in S. destruct (Str.isSpaceChar c); [| exact S].
    now apply andb_prop in S as [_ S]. }
  destruct (IH (Str.isSpaceChar c) Cr Sr) as (C' & S' & _ & E').
  destruct (Str.trimEnd r) as [| d r'] eqn:T.
  - destruct (Str.isSpaceChar c) eqn:Sp; [repeat split |].
    repeat split; cbn; rewrite ?Cc, ?Sp; reflexivity.
  - repeat split.
    + cbn [forallb]. rewrite Cc. exact C'.
    + cbn [singleSpaced] in S |- *. destruct (Str.isSpaceChar c).
      * apply andb_prop in S as [Sa _]. rewrite Sa. exact S'.
      * exact S'.
    + intros St. exact St.
    + exact E'.
Qed.

Lemma preprocessString_tidy (s : jsstring) : tidy (preprocessString s) = true.
Proof.
  rewrite preprocessString_eq. unfold Str.trim, tidy.
  pose proof (collapse_clean s false) as C.
  pose proof (collapse_singleSpaced (map normalChar s) false) as S.
  destruct (trimStart_shape _ C S) as (C1 & S1 & B1).
  destruct (trimEnd_shape _ false C1 S1) as (C2 & S2 & B2 & E2).
  now rewrite C2, S2, (B2 B1), E2.
Qed.

(** *** Preprocessing a preprocessed text *)

Lemma map_normalChar_clean (s : jsstring) :
  forallb cleanChar s = true -> map normalChar s = s.
Proof.
  induction s as [| c r IH]; intros C; [reflexivity |].
  cbn [forallb] in C. apply andb_prop in C as [Cc Cr].
  cbn [map]. now rewrite (normalChar_clean c Cc), (IH Cr).
Qed.

Lemma collapse_singleSpaced_id (s : jsstring) : forall afterSpace,
  forallb cleanChar s = true -> singleSpaced afterSpace s = true ->
  Str.collapseFrom afterSpace s = s.
Proof.
  induction s as [| c r IH]; intros afterSpace C S; [reflexivity |].
  cbn [forallb] in C. apply andb_prop in C as [Cc Cr].
  cbn [Str.collapseFrom singleSpaced] in S |- *.
  destruct (Str.isSpaceChar c) eqn:Sp.
  - apply andb_prop in S as [Sa Sr]. destruct afterSpace; [discriminate |].
    rewrite (IH true Cr Sr). now rewrite (clean_space c Cc Sp).
  - now rewrite (IH false Cr S).
Qed.

Lemma trimStart_id (s : jsstring) : startsClean s = true -> Str.trimStart s = s.
Proof.
  destruct s as [| c r]; [reflexivity |]. cbn.
  destruct (Str.isSpaceChar c); [discriminate | reflexivity].
Qed.

Lemma trimEnd_id (s : jsstring) : endsClean s = true -> Str.trimEnd s = s.
Proof.
  induction s as [| c r IH]; intros E; [reflexivity |].
  cbn [Str.trimEnd]. destruct r as [| d r'].
  - cbn in E |- *. destruct (Str.isSpaceChar c); [discriminate | reflexivity].
  - cbn [endsClean] in E. now rewrite (IH E).
Qed.

Lemma tidy_fixed (s : jsstring) : tidy s = true -> preprocessString s = s.
Proof.
  unfold tidy. intros T.
  apply andb_prop in T as [T E]. apply andb_prop in T as [T B].
  apply andb_prop in T as [C S].
  rewrite preprocessString_eq, (map_normalChar_clean s C),
    (collapse_singleSpaced_id s false C S).
  unfold Str.trim. now rewrite (trimStart_id s B), (trimEnd_id s E).
Qed.

Lemma preprocessText_idempotent (text : value) :
  preprocessText (VStr (preprocessText text)) = preprocessText text.
Proof.
  rewrite preprocessText_string.
  destruct text; try reflexivity.
  rewrite preprocessText_string. apply tidy_fixed, preprocessString_tidy.
Qed.

(** *** Punctuation on the way to the scorer *)

Lemma includes_single (s : jsstring) (c : ascii) :
  Str.includes s [c] = true -> In c s.
Proof.
  induction s as [| x r IH]; cbn [Str.includes Str.startsWith]; intros H.
  - discriminate.
  - apply orb_prop in H as [H | H].
    + apply andb_prop in H as [H _]. apply Ascii.eqb_eq in H. now left.
    + right. auto.
Qed.

Lemma clean_has_no_mark (s : jsstring) (c : ascii) :
  forallb cleanChar s = true -> isMark c = true -> ~ In c s.
Proof.
  intros C M I. rewrite forallb_forall in C.
  pose proof (C c I) as Y. pose proof (mark_not_clean c M) as N. congruence.
Qed.

Lemma tidy_clean (s : jsstring) : tidy s = true -> forallb cleanChar s = true.
Proof.
  unfold tidy. intros T.
  apply andb_prop in T as [T _]. apply andb_prop in T as [T _].
  now apply andb_prop in T as [C _].
Qed.

Lemma no_question_mark_tidy (s : jsstring) :
  tidy s = true -> Str.includes s (lit "?") = false.
Proof.
  intros T. destruct (Str.includes s (lit "?")) eqn:I; [| reflexivity].
  apply includes_single in I.
  now destruct (clean_has_no_mark s "?"%char (tidy_clean s T) eq_refl).
Qed.

Lemma questionModifier_tidy (s : jsstring) (score : Q) :
  tidy s = true -> questionModifier s score = score.
Proof.
  intros T. unfold questionModifier. now rewrite (no_question_mark_tidy s T).
Qed.

Lemma countChar_tidy (s : jsstring) :
  tidy s = true -> Str.countChar "!"%char s = 0%nat.
Proof.
  intros T. unfold Str.countChar.
  destruct (filter (Ascii.eqb "!"%char) s) as [| x r] eqn:F; [reflexivity |].
  assert (I : In x (x :: r)) by apply in_eq.
  rewrite <- F in I. apply filter_In in I as [I E].
  apply Ascii.eqb_eq in E. subst x.
  now destruct (clean_has_no_mark s "!"%char (tidy_clean s T) eq_refl).
Qed.

Lemma exclamationModifier_tidy (s : jsstring) (score : Q) :
  tidy s = true -> exclamationModifier s score = score.
Proof.
  intros T. unfold exclamationModifier. now rewrite (countChar_tidy s T).
Qed.

Lemma preprocessText_tidy (text : value) : tidy (preprocessText text) = true.
Proof.
  destruct text; try reflexivity.
  rewrite preprocessText_string. apply preprocessString_tidy.
Qed.

(** A mark is preprocessed like a space. *)
Lemma mark_as_space (a b : jsstring) (c : ascii) :
  isMark c = true ->
  preprocessString (a ++ c :: b) = preprocessString (a ++ Str.space :: b).
Proof.
  intros M. rewrite !preprocessString_eq, !map_app. cbn [map].
  now rewrite (normalChar_mark c M).
Qed.

Lemma collapse_app (s t : jsstring) : forall afterSpace,
  Str.collapseFrom afterSpace (s ++ t)
  = Str.collapseFrom afterSpace s
    ++ Str.collapseFrom (endsAfterSpace afterSpace s) t.
Proof.
  induction s as [| c r IH]; intros afterSpace; [reflexivity |].
  cbn [app Str.collapseFrom endsAfterSpace].
  destruct (Str.isSpaceChar c); [destruct afterSpace |];
    rewrite IH; reflexivity.
Qed.

Lemma trimStart_collapse (s : jsstring) :
  Str.trimStart (Str.collapseFrom true s) = Str.trimStart (Str.collapseFrom false s).
Proof.
  destruct s as [| c r]; [reflexivity |]. cbn [Str.collapseFrom].
  destruct (Str.isSpaceChar c); reflexivity.
Qed.

Lemma trimEnd_snoc_space (s : jsstring) :
  Str.trimEnd (s ++ [Str.space]) = Str.trimEnd s.
Proof.
  induction s as [| c r IH]; [reflexivity |].
  cbn [app Str.trimEnd]. now rewrite IH.
Qed.

Lemma trim_snoc_space (s : jsstring) : Str.trim (s ++ [Str.space]) = Str.trim s.
Proof.
  unfold Str.trim. induction s as [| c r IH]; [reflexivity |].
  cbn [app Str.trimStart]. destruct (Str.isSpaceChar c); [exact IH |].
  exact (trimEnd_snoc_space (c :: r)).
Qed.

Lemma endsAfterSpace_snoc (s : jsstring) (c : ascii) : forall afterSpace,
  endsAfterSpace afterSpace (s ++ [c]) = Str.isSpaceChar c.
Proof.
  induction s as [| x r IH]; intros afterSpace; [reflexivity |].
  cbn [app endsAfterSpace]. apply IH.
Qed.

(** A mark at the start or the end of the text, or next to a character
    outside [\w], leaves the preprocessed text as it is without it. *)
Lemma mark_at_boundary (a b : jsstring) (c : ascii) :
  isMark c = true ->
  endsAtBoundary a = true \/ startsAtBoundary b = true ->
  preprocessString (a ++ c :: b) = preprocessString (a ++ b).
Proof.
  intros M H. rewrite !preprocessString_eq, !map_app. cbn [map].
  rewrite (normalChar_mark c M), !collapse_app.
  set (after := endsAfterSpace false (map normalChar a)).
  cbn [Str.collapseFrom]. change (Str.isSpaceChar Str.space) with true.
  cbv iota.
  assert (Head : startsAtBoundary b = true ->
    (if after then Str.collapseFrom true (map normalChar b)
     else Str.space :: Str.collapseFrom true (map normalChar b))
    = Str.collapseFrom after (map normalChar b) \/ b = []).
  { intros B. destruct b as [| d b']; [now right | left].
    cbn [startsAtBoundary] in B. cbn [map Str.collapseFrom].
    rewrite normalChar_space_iff, B. destruct after; reflexivity. }
  assert (Last : b = [] ->
    Str.trim (Str.collapseFrom false (map normalChar a)
              ++ (if after then [] else [Str.space]))
    = Str.trim (Str.collapseFrom false (map normalChar a) ++ [])).
  { intros _. destruct after; [reflexivity |].
    now rewrite trim_snoc_space, app_nil_r. }
  destruct H as [A | B].
  - unfold endsAtBoundary in A. destruct (rev a) as [| x ra] eqn:R.
    + apply (f_equal (@rev ascii)) in R. rewrite rev_involutive in R.
      subst a. cbn [rev map Str.collapseFrom app] in *. subst after.
      cbn [endsAfterSpace]. unfold Str.trim. cbn [Str.trimStart].
      change (Str.isSpaceChar Str.space) with true. cbv iota.
      now rewrite trimStart_collapse.
    + apply (f_equal (@rev ascii)) in R. rewrite rev_involutive in R.
      cbn [rev] in R. cbn [startsAtBoundary] in A.
      assert (Ea : after = true).
      { subst after a. rewrite map_app. cbn [map].
        rewrite endsAfterSpace_snoc, normalChar_space_iff. exact A. }
      rewrite Ea. reflexivity.
  - destruct (Head B) as [E | E].
    + now rewrite E.
    + subst b. cbn [map Str.collapseFrom]. destruct after.
      * reflexivity.
      * exact (Last eq_refl).
Qed.

Lemma analyzeSentiment_of_clean (this : service) (x y : value) :
  preprocessText x = preprocessText y ->
  analyzeSentiment this x = analyzeSentiment this y.
Proof. intros E. rewrite !analyzeSentiment_value. now rewrite E. Qed.

(** C8, as the code has it: [analyzeSentiment] gives the same on a text
    and on its preprocessed form; the question-mark and exclamation-mark
    modifiers find no mark in a preprocessed text, which leaves the
    negation and intensifier steps; a question or exclamation mark counts
    as a space where it stands, so replacing it by a space never changes
    the result, and neither does inserting or deleting one at the start or
    end of the text or next to a character that is not a letter, digit or
    underscore. *)
Theorem punctuation_counts_as_space (this : service) :
  (forall text,
     analyzeSentiment this text
     = analyzeSentiment this (VStr (preprocessText text))) /\
  (forall text score,
     let cleanText := preprocessText text in
     Str.includes cleanText (lit "?") = false /\
     Str.countChar "!"%char cleanText = 0%nat /\
     applyContextModifiers cleanText score
     = intensifierModifier cleanText (negationModifier cleanText score)) /\
  (forall a b c, isMark c = true ->
     analyzeSentiment this (VStr (a ++ c :: b))
     = analyzeSentiment this (VStr (a ++ Str.space :: b))) /\
  (forall a b c, isMark c = true ->
     endsAtBoundary a = true \/ startsAtBoundary b = true ->
     analyzeSentiment this (VStr (a ++ c :: b))
     = analyzeSentiment this (VStr (a ++ b))).
Proof.
  split; [| split; [| split]].
  - intros text. apply analyzeSentiment_of_clean.
    symmetry. apply preprocessText_idempotent.
  - intros text score cleanText.
    pose proof (preprocessText_tidy text) as T. fold cleanText in T.
    split; [exact (no_question_mark_tidy _ T) |].
    split; [exact (countChar_tidy _ T) |].
    unfold applyContextModifiers.
    now rewrite (questionModifier_tidy _ _ T), (exclamationModifier_tidy _ _ T).
  - intros a b c M. apply analyzeSentiment_of_clean.
    rewrite !preprocessText_string. exact (mark_as_space a b c M).
  - intros a b c M H. apply analyzeSentiment_of_clean.
    rewrite !preprocessText_string. exact (mark_at_boundary a b c M H).
Qed.

(** C8 as stated fails: deleting the exclamation mark of "gre!at" turns
    a neutral result into a positive one. *)
Lemma deleting_mark_changes_result :
  analyzeSentiment (construct None) (VStr (lit "gre!at"))
  <> analyzeSentiment (construct None) (VStr (lit "great")).
Proof. vm_compute. discriminate. Qed.

(** At "great!" and "great". *)
Lemma punctuation_counts_as_space_witness :
  analyzeSentiment (construct None) (VStr (lit "great" ++ "!"%char :: emptyText))
  = analyzeSentiment (construct None) (VStr (lit "great" ++ emptyText)).
Proof.
  destruct (punctuation_counts_as_space (construct None)) as (_ & _ & _ & B).
  exact (B (lit "great") emptyText "!"%char eq_refl (or_intror eq_refl)).
Defined.

(** * Further properties *)

Import More.

(** ** The normal form of a text *)

(** X1: [preprocessText] is a projection onto the tidy texts (lower-case
    letters, digits and underscores in words separated by single spaces,
    no space at either end): its result is tidy, a tidy text is returned
    as it is, and so preprocessing twice gives what preprocessing once
    gives. *)
Theorem preprocessText_normal_form :
  (forall text : value, tidy (preprocessText text) = true) /\
  (forall s : jsstring, tidy s = true -> preprocessText (VStr s) = s) /\
  (forall text : value,
     preprocessText (VStr (preprocessText text)) = preprocessText text).
Proof.
  split; [exact preprocessText_tidy |]. split.
  - intros s T. rewrite preprocessText_string. now apply tidy_fixed.
  - exact preprocessText_idempotent.
Qed.

(** At "good day". *)
Lemma preprocessText_normal_form_witness :
  tidy (lit "good day") = true /\
  preprocessText (VStr (lit "good day")) = lit "good day".
Proof.
  assert (T : tidy (lit "good day") = true) by reflexivity.
  exact (conj T (proj1 (proj2 preprocessText_normal_form) (lit "good day") T)).
Defined.

Lemma normalChar_lower (c : ascii) : normalChar (Str.toLowerChar c) = normalChar c.
Proof. by_cases_on_char c. Qed.

Lemma asSpace_normalChar (c : ascii) :
  Str.isWordChar c = false -> asSpace (normalChar c) = Str.space.
Proof. by_cases_on_char c. Qed.

Lemma asSpace_kind (c : ascii) :
  Str.isSpaceChar (asSpace c) = Str.isSpaceChar c /\
  (Str.isSpaceChar c = false -> asSpace c = c).
Proof. by_cases_on_char c. Qed.

Lemma collapse_asSpace (s : jsstring) : forall afterSpace,
  Str.collapseFrom afterSpace (map asSpace s) = Str.collapseFrom afterSpace s.
Proof.
  induction s as [| c r IH]; intros afterSpace; [reflexivity |].
  cbn [map Str.collapseFrom]. destruct (asSpace_kind c) as [K1 K2].
  rewrite K1. destruct (Str.isSpaceChar c).
  - destruct afterSpace; now rewrite IH.
  - now rewrite (K2 eq_refl), IH.
Qed.

Lemma preprocess_lower (s : jsstring) :
  preprocessString (Str.toLowerCase s) = preprocessString s.
Proof.
  rewrite !preprocessString_eq. unfold Str.toLowerCase. rewrite map_map.
  f_equal. f_equal. apply map_ext. exact normalChar_lower.
Qed.

Lemma preprocess_separator (a b : jsstring) (c d : ascii) :
  Str.isWordChar c = false -> Str.isWordChar d = false ->
  preprocessString (a ++ c :: b) = preprocessString (a ++ d :: b).
Proof.
  intros C D. rewrite !preprocessString_eq. f_equal.
  rewrite <- (collapse_asSpace (map normalChar (a ++ c :: b))).
  rewrite <- (collapse_asSpace (map normalChar (a ++ d :: b))).
  rewrite !map_app. cbn [map].
  now rewrite (asSpace_normalChar c C), (asSpace_normalChar d D).
Qed.

Lemma preprocess_at_boundary (a b : jsstring) (c : ascii) :
  Str.isWordChar c = false ->
  endsAtBoundary a = true \/ startsAtBoundary b = true ->
  preprocessString (a ++ c :: b) = preprocessString (a ++ b).
Proof.
  intros C H.
  rewrite (preprocess_separator a b c "!"%char C eq_refl).
  exact (mark_at_boundary a b "!"%char eq_refl H).
Qed.

(** X2: what the service reads of a text does not depend on letter case,
    on which character outside [\w] separates two words, or on further
    such characters next to a separator or at the ends of the text; and
    [analyzeSentiment], [extractKeywords] and [getEmotionAnalysis] read
    a text only through [preprocessText]. *)
Theorem text_read_up_to_case_and_separators (this : service) :
  (forall s, preprocessText (VStr (Str.toLowerCase s)) = preprocessText (VStr s)) /\
  (forall a b c d,
     Str.isWordChar c = false -> Str.isWordChar d = false ->
     preprocessText (VStr (a ++ c :: b)) = preprocessText (VStr (a ++ d :: b))) /\
  (forall a b c,
     Str.isWordChar c = false ->
     endsAtBoundary a = true \/ startsAtBoundary b = true ->
     preprocessText (VStr (a ++ c :: b)) = preprocessText (VStr (a ++ b))) /\
  (forall x y maxKeywords,
     preprocessText x = preprocessText y ->
     analyzeSentiment this x = analyzeSentiment this y /\
     extractKeywords x maxKeywords = extractKeywords y maxKeywords /\
     getEmotionAnalysis x = getEmotionAnalysis y).
Proof.
  split; [| split; [| split]].
  - intros s. rewrite !preprocessText_string. apply preprocess_lower.
  - intros a b c d C D. rewrite !preprocessText_string.
    now apply preprocess_separator.
  - intros a b c C H. rewrite !preprocessText_string.
    now apply preprocess_at_boundary.
  - intros x y maxKeywords E. split; [now apply analyzeSentiment_of_clean |].
    unfold extractKeywords, wordFrequencies, getEmotionAnalysis.
    now rewrite E.
Qed.

(** At "Great,  Product" and "great product". *)
Lemma text_read_up_to_case_and_separators_witness :
  analyzeSentiment (construct None) (VStr (lit "GREAT,  product"))
  = analyzeSentiment (construct None) (VStr (lit "great product")).
Proof.
  destruct (text_read_up_to_case_and_separators (construct None))
    as (_ & _ & _ & R).
  exact (proj1 (R (VStr (lit "GREAT,  product")) (VStr (lit "great product"))
                  10%Z eq_refl)).
Defined.

(** ** The tally of a text *)

(** One step of the count: a word outside the lexicons changes nothing, a
    word inside adds itself to the keywords and 1 or 0.5 to one score. *)
Lemma countWord_step (t : tally) (word : jsstring) :
  let t' := countWord t word in
  (isLexiconWord word = false /\ t' = t) \/
  (isLexiconWord word = true /\
   map fst (foundKeywords t') = map fst (foundKeywords t) ++ [word] /\
   positiveScore t <= positiveScore t' /\
   negativeScore t <= negativeScore t' /\
   neutralScore t <= neutralScore t' /\
   totalScore t + 0.5 <= totalScore t' <= totalScore t + 1).
Proof.
  unfold countWord, isLexiconWord, totalScore.
  destruct (Arr.includes positiveKeywords word);
    [| destruct (Arr.includes negativeKeywords word);
       [| destruct (Arr.includes neutralKeywords word)]];
    cbn [orb]; [right | right | right | left; split; reflexivity];
    cbn [positiveScore negativeScore neutralScore foundKeywords];
    rewrite map_app; cbn [map fst];
    (split; [reflexivity |]); (split; [reflexivity |]);
    repeat (split; try lra).
Qed.

Lemma tally_fold (words : list jsstring) : forall t : tally,
  0 <= positiveScore t -> 0 <= negativeScore t -> 0 <= neutralScore t ->
  let t' := fold_left countWord words t in
  let found := filter isLexiconWord words in
  map fst (foundKeywords t') = map fst (foundKeywords t) ++ found /\
  0 <= positiveScore t' /\ 0 <= negativeScore t' /\ 0 <= neutralScore t' /\
  totalScore t + 0.5 * of_nat (List.length found) <= totalScore t' /\
  totalScore t' <= totalScore t + of_nat (List.length found).
Proof.
  induction words as [| w r IH]; intros t P N U.
  - cbv zeta. cbn [fold_left filter List.length]. rewrite app_nil_r.
    unfold of_nat. change (inject_Z (Z.of_nat 0)) with 0.
    repeat (split; try lra).
  - cbn [fold_left filter].
    destruct (countWord_step t w) as [[L E] | (L & K & P' & N' & U' & T')];
      rewrite L.
    + rewrite E. exact (IH t P N U).
    + destruct (IH (countWord t w)) as (K1 & P1 & N1 & U1 & T1 & T2); try lra.
      cbv zeta. rewrite K1, K, <- app_assoc. cbn [app List.length].
      assert (S : of_nat (S (List.length (filter isLexiconWord r)))
                  == of_nat (List.length (filter isLexiconWord r)) + 1).
      { unfold of_nat. rewrite Nat2Z.inj_succ, <- Z.add_1_r, inject_Z_plus.
        reflexivity. }
      rewrite S. repeat (split; try lra).
Qed.

Lemma tallyOf_facts (text : jsstring) :
  let t := tallyOf text in
  let found := filter isLexiconWord (wordsOf text) in
  map fst (foundKeywords t) = found /\
  0 <= positiveScore t /\ 0 <= negativeScore t /\ 0 <= neutralScore t /\
  0.5 * of_nat (List.length found) <= totalScore t <= of_nat (List.length found).
Proof.
  destruct (tally_fold (wordsOf text) emptyTally) as (K & P & N & U & T1 & T2);
    try (cbn; lra).
  cbv zeta. unfold tallyOf.
  change (totalScore emptyTally) with (0 + 0 + 0) in T1, T2.
  cbn [emptyTally foundKeywords map app] in K.
  repeat (split; try assumption; try lra).
Qed.

Lemma keywords_are_lexicon_words_aux (text : jsstring) :
  ScoreResult.keywords (calculateSentimentScore text)
  = filter isLexiconWord (wordsOf text).
Proof.
  cbn [calculateSentimentScore ScoreResult.keywords].
  exact (proj1 (tallyOf_facts text)).
Qed.

(** X3: the keywords of a result are the words of the text (tokens longer
    than two characters) that are in one of the three lexicons, in the
    order and as often as they occur. *)
Theorem keywords_are_lexicon_words (text : jsstring) :
  ScoreResult.keywords (calculateSentimentScore text)
  = filter isLexiconWord (wordsOf text).
Proof. exact (keywords_are_lexicon_words_aux text). Qed.

Lemma of_nat_length_pos {A : Type} (l : list A) :
  l <> [] -> 1 <= of_nat (List.length l).
Proof.
  intros NE. destruct l; [congruence |]. apply of_nat_pos. reflexivity.
Qed.

Lemma noMatches_iff_no_keywords (text : jsstring) :
  noMatches text <-> filter isLexiconWord (wordsOf text) = [].
Proof.
  destruct (tallyOf_facts text) as (_ & _ & _ & _ & T1 & T2).
  unfold noMatches. split.
  - intros Z. destruct (filter isLexiconWord (wordsOf text)) as [| w r] eqn:F;
      [reflexivity |].
    assert (L : 1 <= of_nat (List.length (w :: r)))
      by (apply of_nat_length_pos; discriminate).
    lra.
  - intros E. rewrite E in T1, T2. unfold of_nat in T1, T2.
    cbn [List.length Z.of_nat] in T1, T2. change (inject_Z 0) with 0 in T1, T2.
    lra.
Qed.

(** X4: the confidence tells whether a keyword was found: it is 0.3 when
    the result has no keywords, and from 0.4 to 0.95 when it has some. *)
Theorem confidence_tells_matches (text : jsstring) :
  let r := calculateSentimentScore text in
  (ScoreResult.keywords r = [] -> ScoreResult.confidence r == 0.3) /\
  (ScoreResult.keywords r <> [] -> 0.4 <= ScoreResult.confidence r <= 0.95).
Proof.
  intros r. subst r. rewrite keywords_are_lexicon_words_aux.
  cbn [calculateSentimentScore ScoreResult.confidence].
  pose proof (noMatches_iff_no_keywords text) as I. split.
  - intros E. apply I in E. rewrite (noMatches_base text E). reflexivity.
  - intros NE. assert (NM : ~ noMatches text) by (intros Z; apply NE, I, Z).
    unfold baseScore. destruct (eqb (totalScore (tallyOf text)) 0) eqn:Z.
    + destruct NM. unfold noMatches. now apply Qeq_bool_iff.
    + cbn [snd].
      match goal with |- _ <= parseFloat_toFixed3 ?c <= _ =>
        assert (B : 0.4 <= c <= 0.95) by (apply clamp_bounds'; lra);
        set (conf := c) in * end.
      rewrite parseFloat_toFixed3_nonneg by lra. split.
      * apply Qle_trans with (400 # 1000); [lra | apply round3_ge; lra].
      * apply Qle_trans with (950 # 1000); [apply round3_le; lra | lra].
Qed.

(** At "so nice" and at "great stuff". *)
Lemma confidence_tells_matches_witness :
  ScoreResult.confidence (calculateSentimentScore (lit "so nice")) == 0.3 /\
  0.4 <= ScoreResult.confidence (calculateSentimentScore (lit "great stuff")) <= 0.95.
Proof.
  split.
  - apply (proj1 (confidence_tells_matches (lit "so nice"))). reflexivity.
  - apply (proj2 (confidence_tells_matches (lit "great stuff"))).
    vm_compute. discriminate.
Defined.

(** ** Texts of one polarity *)

Lemma positive_word_long (word : jsstring) :
  Arr.includes positiveKeywords word = true -> (2 <? List.length word)%nat = true.
Proof.
  intros H. apply Arr_includes_In in H.
  assert (A : forallb (fun w => (2 <? List.length w)%nat) positiveKeywords = true)
    by (vm_compute; reflexivity).
  rewrite forallb_forall in A. exact (A word H).
Qed.

Lemma tally_of_positive_words (words : list jsstring) : forall t : tally,
  forallb (Arr.includes positiveKeywords) words = true ->
  let t' := fold_left countWord words t in
  negativeScore t' = negativeScore t /\
  neutralScore t' = neutralScore t /\
  positiveScore t' == positiveScore t + of_nat (List.length words).
Proof.
  induction words as [| w r IH]; intros t A.
  - cbv zeta. cbn [fold_left List.length].
    split; [reflexivity | split; [reflexivity |]].
    unfold of_nat. change (inject_Z (Z.of_nat 0)) with 0. lra.
  - cbn [forallb] in A. apply andb_prop in A as [Aw Ar].
    cbn [fold_left]. destruct (IH (countWord t w) Ar) as (E1 & E2 & E3).
    cbv zeta. rewrite E1, E2, E3. unfold countWord. rewrite Aw.
    cbn [positiveScore neutralScore negativeScore].
    split; [reflexivity | split; [reflexivity |]].
    unfold of_nat. cbn [List.length].
    rewrite Nat2Z.inj_succ, <- Z.add_1_r, inject_Z_plus.
    change (inject_Z 1) with 1. lra.
Qed.

Lemma baseScore_positive (text : jsstring) :
  onlyPositiveWords text = true -> fst (baseScore text) == 0.9.
Proof.
  intros A.
  assert (W : wordsOf text = Str.split_space text).
  { unfold onlyPositiveWords in A. unfold wordsOf.
    induction (Str.split_space text) as [| w r IH]; [reflexivity |].
    cbn [forallb] in A. apply andb_prop in A as [Aw Ar].
    cbn [filter]. now rewrite (positive_word_long w Aw), (IH Ar). }
  unfold baseScore, tallyOf. rewrite W.
  destruct (tally_of_positive_words (Str.split_space text) emptyTally A)
    as (N & U & P).
  set (t := fold_left countWord (Str.split_space text) emptyTally) in *.
  assert (L : 1 <= of_nat (List.length (Str.split_space text)))
    by (apply of_nat_length_pos, split_space_not_empty).
  cbn [positiveScore neutralScore negativeScore emptyTally] in P, U, N.
  assert (T : totalScore t == positiveScore t).
  { unfold totalScore. rewrite N, U. lra. }
  assert (NZ : ~ positiveScore t == 0) by (rewrite P; lra).
  destruct (eqb (totalScore t) 0) eqn:Z.
  - unfold eqb in Z. apply Qeq_bool_iff in Z. rewrite T in Z. contradiction.
  - cbn [fst]. rewrite N, T. unfold Qdiv.
    rewrite (Qmult_inv_r _ NZ). lra.
Qed.

(** The final score from a base score, read off the four modifiers. *)
Lemma final_score_from_base (text : jsstring) (s : Q) :
  let c := Math_max 0 (Math_min 1 (applyContextModifiers text s)) in
  (s == 0.9 -> hasNegation text = false -> 0.7 <= c) /\
  (s == 0.9 -> hasNegation text = true -> c <= 0.3) /\
  (s == 0.3 -> hasNegation text = true -> 0.6 <= c).
Proof.
  unfold_modifiers.
  destruct (hasNegation text), (hasIntensifier text),
    (Str.includes text (lit "?"));
    destruct (0 <? Str.countChar "!" text)%nat eqn:Ex;
    try (pose proof (of_nat_pos _ Ex) as Hk);
    cbv zeta; (split; [| split]); intros A B; try discriminate;
    split_leb; halve; lra.
Qed.

Lemma label_of_high (text : jsstring) :
  0.6 <= clampedScore text ->
  0.6 <= ScoreResult.score (calculateSentimentScore text) /\
  ScoreResult.label (calculateSentimentScore text) = POSITIVE.
Proof.
  intros H. pose proof (clampedScore_bounds text) as [L U].
  cbn [calculateSentimentScore ScoreResult.score ScoreResult.label].
  rewrite (parseFloat_toFixed3_nonneg _ L). split.
  - apply Qle_trans with (600 # 1000); [lra | apply round3_ge; lra].
  - destruct (labelOf_spec (clampedScore text)) as (G & _). now apply G.
Qed.

Lemma label_of_low (text : jsstring) :
  clampedScore text <= 0.4 ->
  ScoreResult.score (calculateSentimentScore text) <= 0.4 /\
  ScoreResult.label (calculateSentimentScore text) = NEGATIVE.
Proof.
  intros H. pose proof (clampedScore_bounds text) as [L U].
  cbn [calculateSentimentScore ScoreResult.score ScoreResult.label].
  rewrite (parseFloat_toFixed3_nonneg _ L). split.
  - apply Qle_trans with (400 # 1000); [apply round3_le; lra | lra].
  - destruct (labelOf_spec (clampedScore text)) as (_ & G & _). now apply G.
Qed.

(** X7: a text made of words of the positive lexicon is labelled by the
    negation check alone: POSITIVE with a score of at least 0.7 when the
    check finds nothing, NEGATIVE with a score of at most 0.3 when it
    finds a negation word, be it inside a word. *)
Theorem positive_text_polarity (text : jsstring) :
  onlyPositiveWords text = true ->
  (hasNegation text = false ->
   0.7 <= ScoreResult.score (calculateSentimentScore text) /\
   ScoreResult.label (calculateSentimentScore text) = POSITIVE) /\
  (hasNegation text = true ->
   ScoreResult.score (calculateSentimentScore text) <= 0.3 /\
   ScoreResult.label (calculateSentimentScore text) = NEGATIVE).
Proof.
  intros A. pose proof (baseScore_positive text A) as B.
  destruct (final_score_from_base text (fst (baseScore text))) as (H1 & H2 & _).
  fold (clampedScore text) in H1, H2.
  pose proof (clampedScore_bounds text) as [L U].
  split; intros N.
  - specialize (H1 B N). split; [| apply label_of_high; lra].
    cbn [calculateSentimentScore ScoreResult.score].
    rewrite (parseFloat_toFixed3_nonneg _ L).
    apply Qle_trans with (700 # 1000); [lra | apply round3_ge; lra].
  - specialize (H2 B N). split; [| apply label_of_low; lra].
    cbn [calculateSentimentScore ScoreResult.score].
    rewrite (parseFloat_toFixed3_nonneg _ L).
    apply Qle_trans with (300 # 1000); [apply round3_le; lra | lra].
Qed.

(** At "great love" and at "innovation". *)
Lemma positive_text_polarity_witness :
  ScoreResult.label (calculateSentimentScore (lit "great love")) = POSITIVE /\
  ScoreResult.label (calculateSentimentScore (lit "innovation")) = NEGATIVE.
Proof.
  split.
  - exact (proj2 (proj1 (positive_text_polarity (lit "great love") eq_refl) eq_refl)).
  - exact (proj2 (proj2 (positive_text_polarity (lit "innovation") eq_refl) eq_refl)).
Defined.

(** X8: a text made of words of the negative lexicon is labelled by the
    negation check alone: NEGATIVE with a score of at most 0.4 when the
    check finds nothing, POSITIVE with a score of at least 0.6 when it
    finds a negation word, be it inside a word. *)
Theorem negative_text_polarity (text : jsstring) :
  onlyNegativeWords text = true ->
  (hasNegation text = false ->
   ScoreResult.score (calculateSentimentScore text) <= 0.4 /\
   ScoreResult.label (calculateSentimentScore text) = NEGATIVE) /\
  (hasNegation text = true ->
   0.6 <= ScoreResult.score (calculateSentimentScore text) /\
   ScoreResult.label (calculateSentimentScore text) = POSITIVE).
Proof.
  intros A. pose proof (baseScore_negative text A) as B.
  destruct (final_score_from_base text (fst (baseScore text))) as (_ & _ & H3).
  fold (clampedScore text) in H3.
  split; intros N.
  - apply label_of_low.
    exact (modifiers_keep_negative text _ B N).
  - apply label_of_high. exact (H3 B N).
Qed.

(** At "terrible waste" and at "annoying". *)
Lemma negative_text_polarity_witness :
  ScoreResult.label (calculateSentimentScore (lit "terrible waste")) = NEGATIVE /\
  ScoreResult.label (calculateSentimentScore (lit "annoying")) = POSITIVE.
Proof.
  split.
  - exact (proj2 (proj1 (negative_text_polarity (lit "terrible waste") eq_refl) eq_refl)).
  - exact (proj2 (proj2 (negative_text_polarity (lit "annoying") eq_refl) eq_refl)).
Defined.

(** ** Keywords on the analyzeSentiment path *)

Lemma split_space_chars (s : jsstring) : forall (w : jsstring) (c : ascii),
  In w (Str.split_space s) -> In c w -> In c s.
Proof.
  induction s as [| x r IH]; intros w c Iw Ic; cbn [Str.split_space] in Iw.
  - destruct Iw as [<- | []]. destruct Ic.
  - destruct (Ascii.eqb x Str.space).
    + destruct Iw as [<- | Iw]; [destruct Ic | right; eauto].
    + destruct (Str.split_space r) as [| w0 ws] eqn:E.
      * destruct Iw as [<- | []]. destruct Ic as [<- | []]. now left.
      * destruct Iw as [<- | Iw].
        -- destruct Ic as [<- | Ic]; [now left | right].
           apply (IH w0 c); [now left | exact Ic].
        -- right. apply (IH w c); [now right | exact Ic].
Qed.

Lemma token_clean (text : value) (w : jsstring) :
  In w (Str.split_space (preprocessText text)) -> forallb cleanChar w = true.
Proof.
  intros I. apply forallb_forall. intros c Ic.
  pose proof (tidy_clean _ (preprocessText_tidy text)) as C.
  rewrite forallb_forall in C. apply C.
  exact (split_space_chars _ w c I Ic).
Qed.

Lemma clean_no_hyphen (w : jsstring) :
  forallb cleanChar w = true -> hasHyphen w = false.
Proof.
  intros C. unfold hasHyphen.
  destruct (existsb (Ascii.eqb "-"%char) w) eqn:E; [| reflexivity].
  apply existsb_exists in E as (c & I & H). apply Ascii.eqb_eq in H. subst c.
  rewrite forallb_forall in C. specialize (C _ I). discriminate.
Qed.

(** X9: a keyword that [analyzeSentiment] returns is a lexicon word made
    of lower-case letters, digits and underscores; the lexicon entries
    with a hyphen, "cutting-edge" and "eco-friendly", are never
    returned, whatever the text. *)
Theorem hyphenated_keywords_never_found (this : service) (text : value) :
  exists r,
    analyzeSentiment this text = Normal r /\
    (forall k, In k (SentimentResult.keywords r) ->
       isLexiconWord k = true /\ forallb cleanChar k = true /\
       hasHyphen k = false) /\
    ~ In (lit "cutting-edge") (SentimentResult.keywords r) /\
    ~ In (lit "eco-friendly") (SentimentResult.keywords r).
Proof.
  rewrite analyzeSentiment_value. eexists. split; [reflexivity |].
  assert (K : forall k,
            In k (SentimentResult.keywords
                    (if isInitialized this then
                       let sentiment := calculateSentimentScore (preprocessText text) in
                       {| SentimentResult.sentiment_score := ScoreResult.score sentiment;
                          SentimentResult.sentiment_label := ScoreResult.label sentiment;
                          SentimentResult.confidence := ScoreResult.confidence sentiment;
                          SentimentResult.keywords := ScoreResult.keywords sentiment |}
                     else getDefaultSentiment)) ->
            isLexiconWord k = true /\ forallb cleanChar k = true /\
            hasHyphen k = false).
  { intros k I. destruct (isInitialized this); [| destruct I].
    cbv zeta in I. cbn [SentimentResult.keywords] in I.
    rewrite keywords_are_lexicon_words_aux in I.
    apply filter_In in I as [I L]. unfold wordsOf in I.
    apply filter_In in I as [I _].
    pose proof (token_clean text k I) as C.
    split; [exact L |]. split; [exact C | now apply clean_no_hyphen]. }
  split; [exact K |]. split; intros I; apply K in I as (_ & _ & H);
    vm_compute in H; discriminate.
Qed.

(** ** The cut of extractKeywords *)

Lemma slice_to_negative {A : Type} (l : list A) (n : Z) :
  (n < 0)%Z ->
  Arr.slice l 0 n = firstn (List.length l - Z.to_nat (- n)) l.
Proof.
  intros H. unfold Arr.slice. cbn [Z.ltb Z.compare].
  assert (E : (n <? 0)%Z = true) by (apply Z.ltb_lt; lia). rewrite E.
  replace (Z.to_nat (Z.min 0 (Z.of_nat (List.length l)))) with 0%nat by lia.
  cbn [skipn]. f_equal. lia.
Qed.

(** X10: [maxKeywords] cuts the ordered keywords from the front: with
    [maxKeywords >= 0] the result is their first [maxKeywords] (none for
    0, all of them when there are fewer); a negative [maxKeywords] does
    not give the empty result but drops that many keywords from the
    end. *)
Theorem extractKeywords_cut (text : value) (maxKeywords : Z) :
  ((0 <= maxKeywords)%Z ->
   extractKeywords text maxKeywords
   = firstn (Z.to_nat maxKeywords) (allKeywords text)) /\
  ((maxKeywords < 0)%Z ->
   extractKeywords text maxKeywords
   = firstn (List.length (allKeywords text) - Z.to_nat (- maxKeywords))
       (allKeywords text)) /\
  extractKeywords text 0 = [].
Proof.
  unfold extractKeywords, allKeywords.
  set (sorted := Arr.sort byValueDescending (Obj.entries (wordFrequencies text))).
  split; [| split].
  - intros H. now rewrite (slice_from_start sorted maxKeywords H), firstn_map.
  - intros H. now rewrite (slice_to_negative sorted maxKeywords H), firstn_map,
      length_map.
  - now rewrite (slice_from_start sorted 0 (Z.le_refl 0)).
Qed.

(** At "alpha alpha beta gamma" with a maximum of 1 and of -1. *)
Lemma extractKeywords_cut_witness :
  extractKeywords (VStr (lit "alpha alpha beta gamma")) 1 = [lit "alpha"] /\
  extractKeywords (VStr (lit "alpha alpha beta gamma")) (-1)
  = [lit "alpha"; lit "beta"].
Proof.
  destruct (extractKeywords_cut (VStr (lit "alpha alpha beta gamma")) 1)
    as (P & _).
  destruct (extractKeywords_cut (VStr (lit "alpha alpha beta gamma")) (-1))
    as (_ & N & _).
  split.
  - rewrite (P ltac:(lia)). vm_compute. reflexivity.
  - rewrite (N ltac:(lia)). vm_compute. reflexivity.
Defined.

(** ** Which tokens are counted as they should *)

Lemma lower_case_inherited (w : jsstring) :
  forallb cleanChar w = true ->
  Str.eqb w (lit "constructor") = false ->
  Str.eqb w Obj.protoKey = false ->
  Obj.inherited w = None.
Proof.
  intros C N1 N2. unfold Obj.inherited. rewrite N2, N1.
  destruct (Arr.includes Obj.prototypeFunctions w) eqn:I; [| reflexivity].
  apply Arr_includes_In in I.
  assert (A : forallb (fun p => Str.eqb p (lit "constructor")
                                || negb (forallb cleanChar p))
                Obj.prototypeFunctions = true) by (vm_compute; reflexivity).
  rewrite forallb_forall in A. specialize (A w I).
  rewrite N1, C in A. discriminate.
Qed.

Lemma plain_is_ordinary (text : value) :
  plainTokens text = true -> ordinaryTokens text = true.
Proof.
  unfold plainTokens, ordinaryTokens. intros P.
  apply forallb_forall. intros w I.
  rewrite forallb_forall in P. specialize (P w I).
  apply andb_prop in P as [P1 P2].
  apply negb_true_iff in P1. apply negb_true_iff in P2.
  assert (C : forallb cleanChar w = true).
  { apply (token_clean text). unfold longTokens in I.
    now apply filter_In in I as [I _]. }
  now rewrite (lower_case_inherited w C P1 P2).
Qed.

(** X11: unless a counted token is "constructor" or "__proto__",
    [extractKeywords] returns the top words by frequency: for
    [maxKeywords >= 0], at most [maxKeywords] distinct tokens longer than
    three characters, in descending order of their frequency in the
    preprocessed text, and a counted token that is left out is no more
    frequent than any returned one. *)
Theorem keywords_top_by_frequency (text : value) (maxKeywords : Z) :
  plainTokens text = true -> (0 <= maxKeywords)%Z ->
  let ks := extractKeywords text maxKeywords in
  (Z.of_nat (List.length ks) <= maxKeywords)%Z /\
  NoDup ks /\
  (forall k, In k ks -> In k (longTokens text)) /\
  StronglySorted (fun a b => (frequency text b <= frequency text a)%nat) ks /\
  (forall w, In w (longTokens text) ->
     In w ks \/
     (Z.of_nat (List.length ks) = maxKeywords /\
      forall k, In k ks -> (frequency text w <= frequency text k)%nat)).
Proof.
  intros P M. exact (keywords_of_ordinary_text text maxKeywords
                       (plain_is_ordinary text P) M).
Qed.

(** At "solar panels and solar roofs" with a maximum of 2. *)
Lemma keywords_top_by_frequency_witness :
  let text := VStr (lit "solar panels and solar roofs") in
  (Z.of_nat (List.length (extractKeywords text 2)) <= 2)%Z /\
  NoDup (extractKeywords text 2).
Proof.
  intros text.
  destruct (keywords_top_by_frequency text 2 eq_refl ltac:(lia)) as (L & N & _).
  exact (conj L N).
Defined.

Lemma proto_not_counted (words : list jsstring) : forall o : Obj.object,
  ~ In Obj.protoKey (map fst o) ->
  ~ In Obj.protoKey (map fst (fold_left countFrequency words o)).
Proof.
  induction words as [| w r IH]; intros o N; [exact N |].
  cbn [fold_left]. apply IH. unfold countFrequency.
  destruct (3 <? List.length w)%nat; [| exact N].
  unfold Obj.set. destruct (Str.eqb w Obj.protoKey) eqn:E; [exact N |].
  rewrite keys_update. destruct (Obj.own o w); [exact N |].
  intros I. apply in_app_or in I as [I | [I | []]]; [contradiction |].
  subst w. rewrite (proj2 (Str_eqb_eq _ _) eq_refl) in E. discriminate.
Qed.

Lemma slice_incl {A : Type} (l : list A) (start stop : Z) (x : A) :
  In x (Arr.slice l start stop) -> In x l.
Proof.
  unfold Arr.slice. intros I. apply in_firstn in I.
  rewrite <- (firstn_skipn (Z.to_nat
    (if (start <? 0)%Z
     then Z.max (Z.of_nat (List.length l) + start) 0
     else Z.min start (Z.of_nat (List.length l)))) l).
  apply in_or_app. now right.
Qed.

(** X12: "__proto__" is never a keyword: assigning a count to that key
    of a plain object stores nothing, so the token is dropped however often
    it occurs, for every text and every [maxKeywords]. *)
Theorem proto_never_a_keyword (text : value) (maxKeywords : Z) :
  ~ In (lit "__proto__") (extractKeywords text maxKeywords).
Proof.
  unfold extractKeywords. intros I.
  apply in_map_iff in I as (p & E & I). apply slice_incl in I.
  apply (Permutation_in _ (sort_permutation byValueDescending _)) in I.
  apply (Permutation_in _ (entries_permutation _)) in I.
  apply (in_map fst) in I. rewrite E in I.
  exact (proto_not_counted _ Obj.empty (fun F => F) I).
Qed.

(** ** Brand mentions *)

Lemma brand_loop_strings (cleanText : jsstring) (elems : list value) :
  allStrings elems = true ->
  mapM (fun brand =>
          brandLower <- call_toLowerCase brand ;;
          Normal (if Str.includes cleanText brandLower then [brand] else []))
       elems
  = Normal (map (fun brand =>
                   match brand with
                   | VStr s => if Str.includes cleanText (Str.toLowerCase s)
                               then [brand] else []
                   | _ => []
                   end) elems).
Proof.
  induction elems as [| b r IH]; intros A; [reflexivity |].
  cbn [allStrings forallb] in A. apply andb_prop in A as [Ab Ar].
  cbn [mapM map]. rewrite (IH Ar).
  destruct b; try discriminate. reflexivity.
Qed.

Lemma brand_loop_raises (cleanText : jsstring) (elems : list value) :
  allStrings elems = false ->
  mapM (fun brand =>
          brandLower <- call_toLowerCase brand ;;
          Normal (if Str.includes cleanText brandLower then [brand] else []))
       elems
  = Throw TypeError.
Proof.
  induction elems as [| b r IH]; intros A; [discriminate |].
  cbn [allStrings forallb] in A. cbn [mapM].
  destruct b; try reflexivity.
  cbn [isString andb] in A. cbn [call_toLowerCase bind].
  unfold allStrings in IH. now rewrite (IH A).
Qed.

Lemma mentions_of_strings (text : jsstring) (elems : list value) :
  allStrings elems = true ->
  List.concat (map (fun brand =>
                      match brand with
                      | VStr s => if Str.includes (Str.toLowerCase text) (Str.toLowerCase s)
                                  then [brand] else []
                      | _ => []
                      end) elems)
  = map VStr (filter (mentioned text) (stringsOf elems)).
Proof.
  induction elems as [| b r IH]; intros A; [reflexivity |].
  cbn [allStrings forallb] in A. apply andb_prop in A as [Ab Ar].
  destruct b; try discriminate.
  cbn [map List.concat stringsOf filter]. unfold mentioned at 1.
  rewrite (IH Ar).
  now destruct (Str.includes (Str.toLowerCase text) (Str.toLowerCase s)).
Qed.

Lemma brand_mentions_of_strings (text : jsstring) (elems : list value) :
  allStrings elems = true ->
  Service.extractBrandMentions (VStr text) (VArr elems)
  = Normal (map VStr (filter (mentioned text) (stringsOf elems))).
Proof.
  intros A. unfold Service.extractBrandMentions.
  cbn [call_toLowerCase bind]. rewrite (brand_loop_strings _ elems A).
  cbn [bind]. now rewrite (mentions_of_strings text elems A).
Qed.

(** X13: on an array of brands, [extractBrandMentions] of the sentiment
    service returns, in the order of the array and with repeats, the
    brands whose lower-cased form occurs in the lower-cased text, when the
    text and all brands are strings; it raises a [TypeError] when the text
    or one of the brands is not a string, the empty array of brands
    included when the text is not a string. *)
Theorem brand_mentions_or_type_error (elems : list value) :
  (forall text : jsstring,
     allStrings elems = true ->
     Service.extractBrandMentions (VStr text) (VArr elems)
     = Normal (map VStr (filter (mentioned text) (stringsOf elems)))) /\
  (forall text : value,
     isString text = false \/ allStrings elems = false ->
     Service.extractBrandMentions text (VArr elems) = Throw TypeError).
Proof.
  split.
  - intros text A. now apply brand_mentions_of_strings.
  - intros text [T | A].
    + destruct text; try reflexivity. discriminate.
    + destruct text; try reflexivity.
      unfold Service.extractBrandMentions. cbn [call_toLowerCase bind].
      now rewrite (brand_loop_raises _ elems A).
Qed.

(** At the brands "Tesla" and "Zuntra", and at a brand that is a number. *)
Lemma brand_mentions_or_type_error_witness :
  Service.extractBrandMentions (VStr (lit "I love my TESLA"))
    (VArr [VStr (lit "Tesla"); VStr (lit "Zuntra")])
  = Normal [VStr (lit "Tesla")] /\
  Service.extractBrandMentions (VStr (lit "I love my TESLA"))
    (VArr [VStr (lit "Tesla"); VNum 3])
  = Throw TypeError.
Proof.
  split.
  - exact (proj1 (brand_mentions_or_type_error
                    [VStr (lit "Tesla"); VStr (lit "Zuntra")])
             (lit "I love my TESLA") eq_refl).
  - exact (proj2 (brand_mentions_or_type_error [VStr (lit "Tesla"); VNum 3])
             (VStr (lit "I love my TESLA")) (or_intror eq_refl)).
Defined.

Lemma stringsOf_strings (l : list jsstring) :
  allStrings (map VStr l) = true /\ stringsOf (map VStr l) = l.
Proof.
  induction l as [| s r [A S]]; [split; reflexivity |].
  cbn [map allStrings forallb isString stringsOf andb]. split; [exact A |].
  now rewrite S.
Qed.

(** X14: the collector's [extractBrandMentions] finds what the sentiment
    service's [extractBrandMentions] finds when that one is given the
    content and the collector's target brands. *)
Theorem brand_mentions_agree (this : Collection.collector) (content : jsstring) :
  Service.extractBrandMentions (VStr content)
    (VArr (map VStr (Collection.targetBrands this)))
  = Normal (map VStr (Collection.extractBrandMentions this content)).
Proof.
  destruct (stringsOf_strings (Collection.targetBrands this)) as [A S].
  rewrite (brand_mentions_of_strings content _ A), S. reflexivity.
Qed.

Lemma toLowerCase_twice (s : jsstring) :
  Str.toLowerCase (Str.toLowerCase s) = Str.toLowerCase s.
Proof.
  unfold Str.toLowerCase. rewrite map_map. apply map_ext.
  intros c. by_cases_on_char c.
Qed.

Lemma startsWith_app (sub rest : jsstring) : Str.startsWith (sub ++ rest) sub = true.
Proof.
  induction sub as [| c r IH]; [destruct rest; reflexivity |].
  cbn [app Str.startsWith]. now rewrite Ascii.eqb_refl, IH.
Qed.

Lemma includes_nil (s : jsstring) : Str.includes s [] = true.
Proof. destruct s; reflexivity. Qed.

Lemma includes_of_prefix (s sub : jsstring) :
  Str.startsWith s sub = true -> Str.includes s sub = true.
Proof. intros H. destruct s; cbn [Str.includes]; now rewrite H. Qed.

Lemma includes_middle (a sub b : jsstring) :
  Str.includes (a ++ sub ++ b) sub = true.
Proof.
  induction a as [| c r IH].
  - cbn [app]. apply includes_of_prefix, startsWith_app.
  - cbn [app Str.includes]. rewrite IH. apply orb_true_r.
Qed.

(** X15: brand matching of the collector ignores letter case and word
    boundaries: lower-casing the content changes nothing, a target brand
    is reported wherever its characters occur in the content, inside a
    longer word too, and an empty target brand is reported for every
    content. *)
Theorem brand_matching_is_substring (this : Collection.collector) :
  (forall content,
     Collection.extractBrandMentions this (Str.toLowerCase content)
     = Collection.extractBrandMentions this content) /\
  (forall brand before after,
     In brand (Collection.targetBrands this) ->
     In brand (Collection.extractBrandMentions this (before ++ brand ++ after))) /\
  (forall content,
     In emptyText (Collection.targetBrands this) ->
     In emptyText (Collection.extractBrandMentions this content)).
Proof.
  unfold Collection.extractBrandMentions. split; [| split].
  - intros content. now rewrite toLowerCase_twice.
  - intros brand before after I. apply filter_In. split; [exact I |].
    unfold Str.toLowerCase. rewrite !map_app. apply includes_middle.
  - intros content I. apply filter_In. split; [exact I |].
    apply includes_nil.
Qed.

(** At the brand "Tesla" inside "teslas". *)
Lemma brand_matching_is_substring_witness :
  let this := Collection.construct
                {| Collection.TARGET_BRAND := None;
                   Collection.SUBREDDITS := None;
                   Collection.NEWS_KEYWORDS := None;
                   Collection.MAX_POSTS_PER_SOURCE := None;
                   Collection.NEWS_API_KEY := None;
                   Collection.YOUTUBE_API_KEY := None |} in
  In (lit "Tesla")
    (Collection.extractBrandMentions this (lit "two " ++ lit "Tesla" ++ lit "s")).
Proof.
  intros this.
  apply (proj1 (proj2 (brand_matching_is_substring this))).
  left. reflexivity.
Defined.

(** ** The list settings of the collector *)

Lemma split_comma_length (s : jsstring) :
  List.length (Collection.split_comma s) = S (Collection.commas s).
Proof.
  unfold Collection.commas, Str.countChar.
  induction s as [| c r IH]; [reflexivity |].
  cbn [Collection.split_comma filter]. rewrite (Ascii.eqb_sym ","%char c).
  destruct (Ascii.eqb c ","%char).
  - cbn [List.length]. now rewrite IH.
  - destruct (Collection.split_comma r) as [| w ws]; [discriminate |].
    cbn [List.length] in IH |- *. exact IH.
Qed.

Lemma trimStart_starts (s : jsstring) : startsClean (Str.trimStart s) = true.
Proof.
  induction s as [| c r IH]; [reflexivity |]. cbn [Str.trimStart].
  destruct (Str.isSpaceChar c) eqn:E; [exact IH |]. cbn. now rewrite E.
Qed.

Lemma trimEnd_ends (s : jsstring) :
  endsClean (Str.trimEnd s) = true /\
  (startsClean s = true -> startsClean (Str.trimEnd s) = true).
Proof.
  induction s as [| c r [IH _]]; [split; reflexivity |].
  cbn [Str.trimEnd]. destruct (Str.trimEnd r) as [| d r'] eqn:T.
  - destruct (Str.isSpaceChar c) eqn:E; [split; reflexivity |].
    split; [cbn; now rewrite E | intros _; cbn; now rewrite E].
  - split; [exact IH | intros S; exact S].
Qed.

Lemma trim_trimmed (s : jsstring) :
  startsClean (Str.trim s) = true /\ endsClean (Str.trim s) = true.
Proof.
  unfold Str.trim. destruct (trimEnd_ends (Str.trimStart s)) as [E S].
  split; [apply S, trimStart_starts | exact E].
Qed.

(** X16: a list setting of the collector ([TARGET_BRAND], [SUBREDDITS],
    [NEWS_KEYWORDS]) is never empty, its entries have no white space at
    either end, an unset or empty variable gives the entries of the
    fallback, and a set variable gives one entry more than it has commas,
    empty entries included. *)
Theorem listSetting_entries (variable : option jsstring) (fallback : jsstring) :
  let entries := Collection.listSetting variable fallback in
  entries <> [] /\
  (forall x, In x entries -> startsClean x = true /\ endsClean x = true) /\
  (Collection.missing variable = true ->
   entries = Collection.listSetting None fallback) /\
  (forall s, variable = Some s -> s <> [] ->
   List.length entries = S (Collection.commas s)).
Proof.
  intros entries. subst entries. unfold Collection.listSetting.
  split; [| split; [| split]].
  - intros E. apply (f_equal (@List.length jsstring)) in E.
    rewrite length_map, split_comma_length in E. discriminate.
  - intros x I. apply in_map_iff in I as (p & <- & _). apply trim_trimmed.
  - intros M. destruct variable as [[| c s] |]; try reflexivity. discriminate.
  - intros s -> NE. destruct s as [| c s]; [congruence |].
    now rewrite length_map, split_comma_length.
Qed.

(** At the setting "Tesla, Zuntra ,". *)
Lemma listSetting_entries_witness :
  List.length (Collection.listSetting (Some (lit "Tesla, Zuntra ,")) (lit "x"))
  = 3%nat.
Proof.
  destruct (listSetting_entries (Some (lit "Tesla, Zuntra ,")) (lit "x"))
    as (_ & _ & _ & L).
  exact (L (lit "Tesla, Zuntra ,") eq_refl ltac:(discriminate)).
Defined.

Lemma split_comma_trailing (s : jsstring) :
  exists first front,
    Collection.split_comma (s ++ [","%char]) = (first :: front) ++ [[]].
Proof.
  induction s as [| c r (first & front & E)].
  - exists [], []. reflexivity.
  - cbn [app Collection.split_comma]. rewrite E.
    destruct (Ascii.eqb c ","%char).
    + exists [], (first :: front). reflexivity.
    + exists (c :: first), front. reflexivity.
Qed.

(** X17: a [TARGET_BRAND] setting that ends with a comma configures an
    empty brand, and then every content mentions a brand: the collector's
    [extractBrandMentions] is never empty, whatever the content. *)
Theorem trailing_comma_matches_everything
    (env : Collection.environment) (setting content : jsstring) :
  Collection.TARGET_BRAND env = Some (setting ++ [","%char]) ->
  In emptyText (Collection.targetBrands (Collection.construct env)) /\
  Collection.extractBrandMentions (Collection.construct env) content <> [].
Proof.
  intros E.
  assert (I : In emptyText (Collection.targetBrands (Collection.construct env))).
  { cbn [Collection.construct Collection.targetBrands].
    rewrite E. unfold Collection.listSetting.
    destruct (split_comma_trailing setting) as (first & front & S).
    destruct (setting ++ [","%char]) as [| c s] eqn:A;
      [destruct setting; discriminate |].
    rewrite S, map_app. apply in_or_app. right. left. reflexivity. }
  split; [exact I |].
  assert (M : In emptyText
                (Collection.extractBrandMentions (Collection.construct env) content)).
  { unfold Collection.extractBrandMentions. apply filter_In.
    split; [exact I | apply includes_nil]. }
  intros Z. rewrite Z in M. destruct M.
Qed.

(** At the setting "Tesla," and a content without any brand. *)
Lemma trailing_comma_matches_everything_witness :
  Collection.extractBrandMentions
    (Collection.construct
       {| Collection.TARGET_BRAND := Some (lit "Tesla" ++ [","%char]);
          Collection.SUBREDDITS := None;
          Collection.NEWS_KEYWORDS := None;
          Collection.MAX_POSTS_PER_SOURCE := None;
          Collection.NEWS_API_KEY := None;
          Collection.YOUTUBE_API_KEY := None |})
    (lit "weather report")
  <> [].
Proof.
  exact (proj2 (trailing_comma_matches_everything
                  {| Collection.TARGET_BRAND := Some (lit "Tesla" ++ [","%char]);
                     Collection.SUBREDDITS := None;
                     Collection.NEWS_KEYWORDS := None;
                     Collection.MAX_POSTS_PER_SOURCE := None;
                     Collection.NEWS_API_KEY := None;
                     Collection.YOUTUBE_API_KEY := None |}
                  (lit "Tesla") (lit "weather report") eq_refl)).
Defined.

(** ** analyzeBatch and the sign of the batch size *)

Lemma analyzeBatch_loop_stuck (this : service) (texts : list value) :
  (batchSize this < 0)%Z -> texts <> [] ->
  forall (fuel : nat) (i : Z) (results : list SentimentResult.t),
    (i <= 0)%Z -> analyzeBatch_loop fuel this texts i results = None.
Proof.
  intros B NE. induction fuel as [| fuel IH]; intros i results Hi; [reflexivity |].
  cbn [analyzeBatch_loop].
  destruct (Z.ltb_spec i (Z.of_nat (List.length texts))) as [_ | Ge].
  - destruct (mapM_total (analyzeSentiment this)
                (Arr.slice texts i (i + batchSize this))
                (analyzeSentiment_returns this)) as (batchResults & E & _).
    rewrite E. apply IH. lia.
  - destruct texts; [congruence | cbn [List.length] in Ge; lia].
Qed.

(** X18: with a negative batch size (a negative [BATCH_SIZE] in the
    environment) [analyzeBatch] returns for the empty array only: on an
    array with a text its loop index never reaches the length, whatever
    the number of steps. *)
Theorem analyzeBatch_negative_size (this : service) :
  (batchSize this < 0)%Z ->
  (forall fuel, analyzeBatch (S fuel) this (VArr []) = Some (Normal [])) /\
  (forall fuel texts, texts <> [] -> analyzeBatch fuel this (VArr texts) = None).
Proof.
  intros B. split.
  - intros fuel. reflexivity.
  - intros fuel texts NE. unfold analyzeBatch.
    apply (analyzeBatch_loop_stuck this texts B NE). lia.
Qed.

(** At a batch size of -5 and one text. *)
Lemma analyzeBatch_negative_size_witness :
  analyzeBatch 1000 (Service.construct (Some (-5)%Z)) (VArr [VStr (lit "a")]) = None.
Proof.
  exact (proj2 (analyzeBatch_negative_size (Service.construct (Some (-5)%Z))
                  eq_refl)
           1000%nat [VStr (lit "a")] ltac:(discriminate)).
Defined.

(** ** collectNewsData *)

Section NewsRun.

Variable this : Collection.collector.
Variable sentiment : service.
Variable base64 : jsstring -> jsstring.
Variable world : Collection.script.

(** What the loop over the articles of one keyword adds. *)
Lemma forArticles_adds (keyword : jsstring) (articles : list Collection.article) :
  forall (n : nat) (st : Collection.state),
    let r := Collection.forArticles this sentiment base64 world keyword articles n st in
    exists addedPosts addedSentiments,
      Collection.posts (snd r) = Collection.posts st ++ addedPosts /\
      Collection.sentiments (snd r) = Collection.sentiments st ++ addedSentiments /\
      snd (fst r) = (n + List.length addedSentiments)%nat /\
      Collection.requests (snd r) = Collection.requests st /\
      Collection.consumed (snd r) = Collection.consumed st /\
      (fst (fst r) = Collection.Completed ->
       List.length addedPosts = List.length addedSentiments) /\
      (List.length addedSentiments <= List.length addedPosts
       <= S (List.length addedSentiments))%nat /\
      Forall (fun d => exists a,
                  In a articles /\
                  Collection.recordOf this sentiment keyword a = Some d)
        addedSentiments.
Proof.
  induction articles as [| a rest IH]; intros n st.
  - exists [], []. cbn. rewrite !app_nil_r. repeat split; auto; lia.
  - assert (Skip : forall n' st',
      let r := Collection.forArticles this sentiment base64 world keyword rest n' st' in
      exists addedPosts addedSentiments,
        Collection.posts (snd r) = Collection.posts st' ++ addedPosts /\
        Collection.sentiments (snd r) = Collection.sentiments st' ++ addedSentiments /\
        snd (fst r) = (n' + List.length addedSentiments)%nat /\
        Collection.requests (snd r) = Collection.requests st' /\
        Collection.consumed (snd r) = Collection.consumed st' /\
        (fst (fst r) = Collection.Completed ->
         List.length addedPosts = List.length addedSentiments) /\
        (List.length addedSentiments <= List.length addedPosts
         <= S (List.length addedSentiments))%nat /\
        Forall (fun d => exists a',
                    In a' (a :: rest) /\
                    Collection.recordOf this sentiment keyword a' = Some d)
          addedSentiments).
    { intros n' st'.
      destruct (IH n' st') as (ps & ss & P & S & N & Rq & C & E & L & G).
      exists ps, ss. repeat split; auto; try lia.
      eapply Forall_impl; [| exact G].
      intros d (a' & I & R). exists a'. split; [now right | exact R]. }
    cbn [Collection.forArticles].
    destruct (Collection.title a) as [[| t0 t] |] eqn:T; try apply Skip.
    destruct (Collection.description a) as [[| d0 d] |] eqn:D; try apply Skip.
    set (fullContent := (t0 :: t) ++ Str.space :: d0 :: d).
    destruct (Collection.extractBrandMentions this fullContent)
      as [| mentionedBrand others] eqn:M; [apply Skip |].
    unfold Collection.savePost.
    destruct (Collection.databaseAccepts world (Collection.databaseCalls st)) eqn:D1.
    2:{ exists [], []. cbn. rewrite !app_nil_r.
        repeat split; auto; try lia. }
    destruct (analyzeSentiment_returns sentiment (VStr fullContent)) as [res R].
    rewrite R. unfold Collection.saveSentimentData.
    cbn [Collection.databaseCalls Collection.posts Collection.sentiments
           Collection.requests Collection.consumed Collection.logs].
    destruct (Collection.databaseAccepts world (S (Collection.databaseCalls st))) eqn:D2.
    2:{ exists [Collection.newsPost base64 a (t0 :: t)], []. cbn.
        rewrite !app_nil_r. repeat split; auto; try lia. discriminate. }
    match goal with
    | |- context [Collection.forArticles _ _ _ _ _ rest ?n' ?st'] =>
        destruct (Skip n' st') as (ps & ss & P & S & N & Rq & C & E & L & G)
    end.
    cbn [Collection.databaseCalls Collection.posts Collection.sentiments
           Collection.requests Collection.consumed Collection.logs] in *.
    exists (Collection.newsPost base64 a (t0 :: t) :: ps),
      (Collection.newsSentiment a keyword fullContent res mentionedBrand :: ss).
    cbv zeta. rewrite P, S, N, Rq, C, <- !app_assoc. cbn [app List.length].
    repeat split; auto; try lia.
    constructor; [| exact G].
    exists a. split; [now left |].
    unfold Collection.recordOf, Collection.contentOf. rewrite T, D.
    fold fullContent. now rewrite M, R.
Qed.

(** What one keyword adds: its request, and records of the articles of
    the reply to it. *)
Lemma forKeyword_adds (keyword : jsstring) (n : nat) (st : Collection.state) :
  let r := Collection.forKeyword this sentiment base64 world keyword n st in
  exists addedPosts addedSentiments,
    Collection.posts (snd r) = Collection.posts st ++ addedPosts /\
    Collection.sentiments (snd r) = Collection.sentiments st ++ addedSentiments /\
    fst r = (n + List.length addedSentiments)%nat /\
    Collection.requests (snd r) =
      Collection.requests st ++ [Collection.requestFor this keyword] /\
    Collection.consumed (snd r) = Collection.consumed st /\
    (List.length addedSentiments <= List.length addedPosts
     <= S (List.length addedSentiments))%nat /\
    Forall (fun d => exists a,
                In a (Collection.articlesOf world
                        (List.length (Collection.requests st))) /\
                Collection.recordOf this sentiment keyword a = Some d)
      addedSentiments.
Proof.
  unfold Collection.forKeyword, Collection.getArticles, Collection.articlesOf.
  set (st1 := Collection.Build_state _ _ _ _ _ _).
  assert (Loop : forall articles,
    let r := match Collection.forArticles this sentiment base64 world
                     keyword articles n st1 with
             | (Collection.Completed, n', st2) =>
                 (n', Collection.log (Collection.InfoCollected n' keyword) st2)
             | (Collection.Raised, n', st2) =>
                 (n', Collection.log (Collection.ErrorKeyword keyword) st2)
             end in
    exists addedPosts addedSentiments,
      Collection.posts (snd r) = Collection.posts st ++ addedPosts /\
      Collection.sentiments (snd r) = Collection.sentiments st ++ addedSentiments /\
      fst r = (n + List.length addedSentiments)%nat /\
      Collection.requests (snd r) =
        Collection.requests st ++ [Collection.requestFor this keyword] /\
      Collection.consumed (snd r) = Collection.consumed st /\
      (List.length addedSentiments <= List.length addedPosts
       <= S (List.length addedSentiments))%nat /\
      Forall (fun d => exists a,
                  In a articles /\
                  Collection.recordOf this sentiment keyword a = Some d)
        addedSentiments).
  { intros articles.
    destruct (forArticles_adds keyword articles n st1)
      as (ps & ss & P & S & N & Rq & C & _ & L & G).
    destruct (Collection.forArticles this sentiment base64 world
                keyword articles n st1) as [[e n'] st2].
    cbn [fst snd] in *. exists ps, ss.
    destruct e; cbn [fst snd Collection.log Collection.posts
                       Collection.sentiments Collection.requests
                       Collection.consumed];
      rewrite P, S, N, Rq, C; repeat split; auto; lia. }
  destruct (Collection.responses world (List.length (Collection.requests st)))
    as [[articles |] | e].
  - apply Loop.
  - apply (Loop []).
  - exists [], []. cbn. rewrite !app_nil_r. repeat split; auto; lia.
Qed.

(** What the loop over the keywords adds: a request for each of the
    keywords reached, and records of the articles of the replies, each
    under the keyword of its request. *)
Lemma forKeywords_adds (keywords : list jsstring) :
  forall (n : nat) (st : Collection.state),
    let r := Collection.forKeywords this sentiment base64 world keywords n st in
    exists reached addedPosts addedSentiments,
      (reached <= List.length keywords)%nat /\
      Collection.requests (snd r) =
        Collection.requests st
        ++ map (Collection.requestFor this) (firstn reached keywords) /\
      (forall i, (i < reached)%nat ->
                 Collection.limiterAllows world (Collection.consumed st + i) = true) /\
      ((reached < List.length keywords)%nat ->
       Collection.limiterAllows world (Collection.consumed st + reached) = false) /\
      (fst (fst r) = Collection.Completed <-> reached = List.length keywords) /\
      Collection.posts (snd r) = Collection.posts st ++ addedPosts /\
      Collection.sentiments (snd r) = Collection.sentiments st ++ addedSentiments /\
      snd (fst r) = (n + List.length addedSentiments)%nat /\
      (List.length addedSentiments <= List.length addedPosts
       <= List.length addedSentiments + reached)%nat /\
      Forall (fun d => exists j keyword a,
                  (j < reached)%nat /\
                  nth_error keywords j = Some keyword /\
                  In a (Collection.articlesOf world
                          (List.length (Collection.requests st) + j)) /\
                  Collection.recordOf this sentiment keyword a = Some d)
        addedSentiments.
Proof.
  induction keywords as [| keyword rest IH]; intros n st.
  - exists 0%nat, [], []. cbn. rewrite !app_nil_r.
    repeat split; auto; try lia.
  - cbn [Collection.forKeywords]. unfold Collection.consume.
    destruct (Collection.limiterAllows world (Collection.consumed st)) eqn:A.
    2:{ exists 0%nat, [], []. cbn. rewrite !app_nil_r, Nat.add_0_r.
        repeat split; auto; try lia; discriminate. }
    set (st1 := Collection.Build_state _ _ _ _ _ _).
    destruct (forKeyword_adds keyword n st1)
      as (ps1 & ss1 & P1 & S1 & N1 & Rq1 & C1 & L1 & G1).
    destruct (Collection.forKeyword this sentiment base64 world keyword n st1)
      as [n1 st2].
    cbn [fst snd] in *. subst n1.
    destruct (IH (n + List.length ss1)%nat st2)
      as (k & ps & ss & K & Rq & Al & Re & Co & P & S & N & L & G).
    exists (Datatypes.S k), (ps1 ++ ps), (ss1 ++ ss).
    cbv zeta. rewrite Rq, P, S, N, Rq1, P1, S1, !length_app, <- !app_assoc.
    rewrite C1 in Al, Re. rewrite Rq1 in G. rewrite length_app in G.
    cbn [Collection.consumed Collection.posts Collection.sentiments
           Collection.requests st1 firstn map app List.length] in *.
    split; [lia |]. split; [reflexivity |].
    split. { intros [| i] Hi.
             - rewrite Nat.add_0_r. exact A.
             - replace (Collection.consumed st + Datatypes.S i)%nat
                 with (Datatypes.S (Collection.consumed st) + i)%nat by lia.
               apply Al. lia. }
    split. { intros Hk.
             replace (Collection.consumed st + Datatypes.S k)%nat
               with (Datatypes.S (Collection.consumed st) + k)%nat by lia.
             apply Re. lia. }
    split. { destruct Co as [Co1 Co2]. split; intros H.
             - apply Co1 in H. lia.
             - apply Co2. lia. }
    split; [reflexivity |]. split; [reflexivity |]. split; [lia |].
    split; [lia |].
    apply Forall_app. split.
    + eapply Forall_impl; [| exact G1].
      intros d (a & I & R). exists 0%nat, keyword, a.
      rewrite Nat.add_0_r. repeat split; auto. lia.
    + eapply Forall_impl; [| exact G].
      intros d (j & kw & a & J & Nth & I & R). exists (Datatypes.S j), kw, a.
      replace (List.length (Collection.requests st) + Datatypes.S j)%nat
        with (List.length (Collection.requests st) + 1 + j)%nat by lia.
      repeat split; auto. lia.
Qed.

End NewsRun.

Lemma collectNewsData_cases (this : Collection.collector) (sentiment : service)
    (base64 : jsstring -> jsstring) (world : Collection.script)
    (st : Collection.state) :
  let r := Collection.collectNewsData this sentiment base64 world st in
  let loop := Collection.forKeywords this sentiment base64 world
                (Collection.newsKeywords this) 0 st in
  (Collection.missing (Collection.newsApiKey this) = true /\
   fst r = 0%nat /\
   Collection.posts (snd r) = Collection.posts st /\
   Collection.sentiments (snd r) = Collection.sentiments st /\
   Collection.requests (snd r) = Collection.requests st) \/
  (Collection.missing (Collection.newsApiKey this) = false /\
   fst r = snd (fst loop) /\
   Collection.posts (snd r) = Collection.posts (snd loop) /\
   Collection.sentiments (snd r) = Collection.sentiments (snd loop) /\
   Collection.requests (snd r) = Collection.requests (snd loop)).
Proof.
  unfold Collection.collectNewsData.
  destruct (Collection.missing (Collection.newsApiKey this)).
  - left. cbn. auto.
  - right.
    destruct (Collection.forKeywords this sentiment base64 world
                (Collection.newsKeywords this) 0 st) as [[[|] n] st1];
      cbn; auto.
Qed.

Lemma recordOf_facts (this : Collection.collector) (sentiment : service)
    (keyword : jsstring) (a : Collection.article) (d : Collection.sentimentData) :
  Collection.recordOf this sentiment keyword a = Some d ->
  exists fullContent,
    Collection.contentOf a = Some fullContent /\
    Collection.platform d = lit "news" /\
    Collection.source d = keyword /\
    Collection.meta_keyword d = keyword /\
    Collection.meta_url d = Collection.url a /\
    Collection.content d = firstn 1000 fullContent /\
    In (Collection.brand d) (Collection.targetBrands this) /\
    Str.includes (Str.toLowerCase fullContent)
      (Str.toLowerCase (Collection.brand d)) = true /\
    0 <= Collection.sentiment_score d <= 1 /\
    0.3 <= Collection.confidence d <= 0.95.
Proof.
  unfold Collection.recordOf.
  destruct (Collection.contentOf a) as [fullContent |]; [| discriminate].
  destruct (Collection.extractBrandMentions this fullContent)
    as [| mentionedBrand others] eqn:M; [discriminate |].
  destruct (analyzeSentiment_bounds sentiment (VStr fullContent))
    as (res & An & B1 & B2).
  rewrite An. intros [= <-]. exists fullContent.
  assert (I : In mentionedBrand
                (Collection.extractBrandMentions this fullContent))
    by (rewrite M; now left).
  apply filter_In in I as [I Inc].
  cbn [Collection.newsSentiment Collection.platform Collection.source
         Collection.meta_keyword Collection.meta_url Collection.content
         Collection.brand Collection.sentiment_score Collection.confidence].
  repeat (split; [first [reflexivity | assumption] |]). assumption.
Qed.

Lemma nth_error_requests (this : Collection.collector) (keywords : list jsstring)
    (before : list Collection.request) (reached j : nat) (keyword : jsstring) :
  (j < reached)%nat -> nth_error keywords j = Some keyword ->
  nth_error (before ++ map (Collection.requestFor this) (firstn reached keywords))
    (List.length before + j)
  = Some (Collection.requestFor this keyword).
Proof.
  intros J N.
  rewrite nth_error_app2 by lia.
  replace (List.length before + j - List.length before)%nat with j by lia.
  rewrite nth_error_map, nth_error_firstn.
  destruct (Nat.ltb_spec j reached) as [_ | Ge]; [| lia].
  now rewrite N.
Qed.

(** X19: the number [collectNewsData] resolves with is the number of
    records of sentiment data that the run saved, whatever it started
    from and whatever the limiter, the requests and the database did.
    The saved posts are at least as many, and exceed them by at most one
    for each request made: a post whose sentiment data could not be saved
    ends the articles of its keyword. *)
Theorem collectNewsData_counts_sentiment_records
    (this : Collection.collector) (sentiment : service)
    (base64 : jsstring -> jsstring) (world : Collection.script)
    (st : Collection.state) :
  let r := Collection.collectNewsData this sentiment base64 world st in
  exists addedPosts addedSentiments addedRequests,
    Collection.posts (snd r) = Collection.posts st ++ addedPosts /\
    Collection.sentiments (snd r) = Collection.sentiments st ++ addedSentiments /\
    Collection.requests (snd r) = Collection.requests st ++ addedRequests /\
    fst r = List.length addedSentiments /\
    (List.length addedSentiments <= List.length addedPosts
     <= List.length addedSentiments + List.length addedRequests)%nat.
Proof.
  cbv zeta.
  destruct (collectNewsData_cases this sentiment base64 world st)
    as [(_ & N & P & S & Rq) | (_ & N & P & S & Rq)];
    rewrite N, P, S, Rq.
  - exists [], [], []. rewrite !app_nil_r. cbn. repeat split; auto.
  - destruct (forKeywords_adds this sentiment base64 world
                (Collection.newsKeywords this) 0%nat st)
      as (k & ps & ss & K & Rq' & _ & _ & _ & P' & S' & N' & L & _).
    exists ps, ss,
      (map (Collection.requestFor this) (firstn k (Collection.newsKeywords this))).
    rewrite Rq', P', S', N', length_map, length_firstn.
    repeat split; auto; lia.
Qed.

(** X20: every record of sentiment data that [collectNewsData] saves
    comes from an article of the replies: it is the record of an article
    in the reply to the request that the run made for one of the news
    keywords, under that keyword.  So it is a news record, its content is
    the first 1000 characters at most of the article's title, a space and
    its description, its brand is a target brand that these mention,
    whatever the case, its score lies in [0, 1] and its confidence in
    [0.3, 0.95]. *)
Theorem collectNewsData_saved_records
    (this : Collection.collector) (sentiment : service)
    (base64 : jsstring -> jsstring) (world : Collection.script)
    (st : Collection.state) :
  let r := Collection.collectNewsData this sentiment base64 world st in
  exists addedSentiments,
    Collection.sentiments (snd r) = Collection.sentiments st ++ addedSentiments /\
    Forall (fun d =>
              exists (number : nat) (keyword : jsstring)
                     (articles : list Collection.article)
                     (a : Collection.article) (fullContent : jsstring),
                In keyword (Collection.newsKeywords this) /\
                nth_error (Collection.requests (snd r)) number
                = Some (Collection.requestFor this keyword) /\
                (List.length (Collection.requests st) <= number)%nat /\
                Collection.responses world number = Normal (Some articles) /\
                In a articles /\
                Collection.contentOf a = Some fullContent /\
                Collection.recordOf this sentiment keyword a = Some d /\
                Collection.platform d = lit "news" /\
                Collection.source d = keyword /\
                Collection.meta_keyword d = keyword /\
                Collection.meta_url d = Collection.url a /\
                Collection.content d = firstn 1000 fullContent /\
                In (Collection.brand d) (Collection.targetBrands this) /\
                Str.includes (Str.toLowerCase fullContent)
                  (Str.toLowerCase (Collection.brand d)) = true /\
                0 <= Collection.sentiment_score d <= 1 /\
                0.3 <= Collection.confidence d <= 0.95)
      addedSentiments.
Proof.
  cbv zeta.
  destruct (collectNewsData_cases this sentiment base64 world st)
    as [(_ & _ & _ & S & _) | (_ & _ & _ & S & Rq)]; rewrite S.
  - exists []. rewrite app_nil_r. split; [reflexivity | constructor].
  - rewrite Rq.
    destruct (forKeywords_adds this sentiment base64 world
                (Collection.newsKeywords this) 0%nat st)
      as (k & ps & ss & _ & Rq' & _ & _ & _ & _ & S' & _ & _ & G).
    exists ss. split; [exact S' |]. rewrite Rq'.
    eapply Forall_impl; [| exact G].
    intros d (j & keyword & a & J & Nth & I & R).
    destruct (recordOf_facts this sentiment keyword a d R)
      as (fullContent & Co & Facts).
    unfold Collection.articlesOf in I.
    destruct (Collection.responses world
                (List.length (Collection.requests st) + j))
      as [[articles |] | e] eqn:Reply; try contradiction.
    exists (List.length (Collection.requests st) + j)%nat, keyword, articles,
      a, fullContent.
    split; [exact (nth_error_In _ _ Nth) |].
    split; [exact (nth_error_requests this _ _ k j keyword J Nth) |].
    split; [lia |]. split; [exact Reply |]. split; [exact I |].
    split; [exact Co |]. split; [exact R |]. exact Facts.
Qed.

(** A run with the default settings in which the first request is
    answered with one article about a target brand and the others fail:
    one record is saved, under the first keyword, with the article's
    title and description as its content. *)
Example collectNewsData_one_article :
  let this :=
    Collection.construct
      {| Collection.TARGET_BRAND := None; Collection.SUBREDDITS := None;
         Collection.NEWS_KEYWORDS := None;
         Collection.MAX_POSTS_PER_SOURCE := None;
         Collection.NEWS_API_KEY := Some (lit "key");
         Collection.YOUTUBE_API_KEY := None |} in
  let a :=
    {| Collection.title := Some (lit "Tesla wins");
       Collection.description := Some (lit "An excellent quarter");
       Collection.url := Some (lit "https://example.org/1");
       Collection.sourceName := None;
       Collection.publishedAt := None |} in
  let world :=
    {| Collection.limiterAllows := fun _ => true;
       Collection.responses :=
         fun number => match number with
                       | O => Normal (Some [a])
                       | _ => Throw TypeError
                       end;
       Collection.databaseAccepts := fun _ => true |} in
  let r := Collection.collectNewsData this (Service.construct None) (fun s => s)
             world Collection.initialState in
  fst r = 1%nat /\
  List.length (Collection.requests (snd r)) = 3%nat /\
  map Collection.source (Collection.sentiments (snd r)) = [lit "Tesla"] /\
  map Collection.brand (Collection.sentiments (snd r)) = [lit "Tesla"] /\
  map Collection.content (Collection.sentiments (snd r))
  = [lit "Tesla wins An excellent quarter"] /\
  map Collection.sentiment_label (Collection.sentiments (snd r)) = [POSITIVE].
Proof. vm_compute. repeat split. Qed.

(** X21: [collectNewsData] asks the news service for the news keywords in
    their order, once each, with a page size of 100 at most, and stops at
    the first keyword that the rate limiter refuses; without an API key
    it asks for nothing.  Whether a request fails and whether the
    database refuses a record has no part in it. *)
Theorem collectNewsData_requests
    (this : Collection.collector) (sentiment : service)
    (base64 : jsstring -> jsstring) (world : Collection.script)
    (st : Collection.state) :
  let r := Collection.collectNewsData this sentiment base64 world st in
  let keywords := Collection.newsKeywords this in
  exists reached,
    (reached <= List.length keywords)%nat /\
    Collection.requests (snd r) =
      Collection.requests st
      ++ map (Collection.requestFor this) (firstn reached keywords) /\
    Forall (fun rq => (Collection.pageSize rq <= 100)%Z)
      (map (Collection.requestFor this) (firstn reached keywords)) /\
    (forall i, (i < reached)%nat ->
               Collection.missing (Collection.newsApiKey this) = false /\
               Collection.limiterAllows world (Collection.consumed st + i) = true) /\
    ((reached < List.length keywords)%nat ->
     Collection.missing (Collection.newsApiKey this) = true \/
     Collection.limiterAllows world (Collection.consumed st + reached) = false).
Proof.
  cbv zeta.
  assert (Page : forall ks,
             Forall (fun rq => (Collection.pageSize rq <= 100)%Z)
               (map (Collection.requestFor this) ks)).
  { intros ks. apply Forall_map, Forall_forall. intros k _. cbn. lia. }
  destruct (collectNewsData_cases this sentiment base64 world st)
    as [(M & _ & _ & _ & Rq) | (M & _ & _ & _ & Rq)]; rewrite Rq.
  - exists 0%nat. cbn. rewrite app_nil_r.
    split; [lia |]. split; [reflexivity |]. split; [constructor |].
    split; [intros i Hi; lia | intros _; now left].
  - destruct (forKeywords_adds this sentiment base64 world
                (Collection.newsKeywords this) 0%nat st)
      as (k & ps & ss & K & Rq' & Al & Re & _).
    exists k. split; [exact K |]. split; [exact Rq' |].
    split; [apply Page |].
    split; [intros i Hi; split; [exact M | exact (Al i Hi)] |].
    intros Hk. right. exact (Re Hk).
Qed.

(** X22: a failed request or a refusal of the database for one keyword
    does not stop [collectNewsData]: with an API key and a rate limiter
    that lets every call through, each news keyword is asked for, in
    order, whatever the requests answer and the database does. *)
Theorem collectNewsData_goes_on_after_failures
    (this : Collection.collector) (sentiment : service)
    (base64 : jsstring -> jsstring) (world : Collection.script)
    (st : Collection.state) :
  Collection.missing (Collection.newsApiKey this) = false ->
  (forall i, Collection.limiterAllows world i = true) ->
  Collection.requests
    (snd (Collection.collectNewsData this sentiment base64 world st)) =
  Collection.requests st
  ++ map (Collection.requestFor this) (Collection.newsKeywords this).
Proof.
  intros M A.
  destruct (collectNewsData_cases this sentiment base64 world st)
    as [(M' & _) | (_ & _ & _ & _ & Rq)]; [congruence |].
  rewrite Rq.
  destruct (forKeywords_adds this sentiment base64 world
              (Collection.newsKeywords this) 0%nat st)
    as (k & ps & ss & K & Rq' & _ & Re & _).
  rewrite Rq'. f_equal. f_equal.
  destruct (Nat.eq_dec k (List.length (Collection.newsKeywords this))) as [-> | N].
  - apply firstn_all.
  - rewrite A in Re. assert (k < List.length (Collection.newsKeywords this))%nat
      by lia. specialize (Re H). discriminate.
Qed.

(** With the default keywords, every request failing and the database
    refusing every record. *)
Lemma collectNewsData_goes_on_after_failures_witness :
  let this :=
    Collection.construct
      {| Collection.TARGET_BRAND := None; Collection.SUBREDDITS := None;
         Collection.NEWS_KEYWORDS := None;
         Collection.MAX_POSTS_PER_SOURCE := None;
         Collection.NEWS_API_KEY := Some (lit "key");
         Collection.YOUTUBE_API_KEY := None |} in
  let world :=
    {| Collection.limiterAllows := fun _ => true;
       Collection.responses := fun _ => Throw TypeError;
       Collection.databaseAccepts := fun _ => false |} in
  Collection.requests
    (snd (Collection.collectNewsData this (Service.construct None) (fun s => s)
            world Collection.initialState)) =
  Collection.requests Collection.initialState
  ++ map (Collection.requestFor this) (Collection.newsKeywords this).
Proof.
  intros this world.
  apply (collectNewsData_goes_on_after_failures this (Service.construct None)
           (fun s => s) world Collection.initialState).
  - reflexivity.
  - intros i. reflexivity.
Defined.
